(** * CLOCK: a stepper-motor digit clock for the ESP32

    A shallow embedding of [src/clock.ino].  The file holds two sketches
    of the same clock, one after the other:

    - the first sketch (lines 1-235) stores the wanted digit of each axis
      in [motorTargets], converts it to a step count inside [motorTask]
      and saves the last shown time to EEPROM;
    - the second sketch (lines 235-398) stores the step count itself in
      [targetSteps] (a [float]), clamps digits in [setMotorDigit], offers
      the manual [/setdigit] handler and has no EEPROM at all.

    What both share (machine arithmetic, the AccelStepper and RTClib
    interfaces, the constant [STEPS_PER_DIGIT]) comes first; the sketches
    follow as [Module Sketch1] and [Module Sketch2]. *)

From Stdlib Require Import ZArith QArith Qround Lia Bool String.
From Stdlib Require Import Floats.SpecFloat.
From stdpp Require Import base list.

Local Open Scope Z_scope.

(** ** Machine integers *)

(** [uint8_t] and [uint32_t] values are kept in [Z]; a conversion to the
    type reduces modulo its range. *)
Definition to_uint8 (n : Z) : Z := n mod 2 ^ 8.
Definition to_uint32 (n : Z) : Z := n mod 2 ^ 32.

(** [a - b] and [a + b] on [uint32_t]. *)
Definition sub32 (a b : Z) : Z := to_uint32 (a - b).
Definition add32 (a b : Z) : Z := to_uint32 (a + b).

Definition is_uint8 (n : Z) : Prop := 0 <= n < 2 ^ 8.
Definition is_uint32 (n : Z) : Prop := 0 <= n < 2 ^ 32.

(** [#define MOTOR_COUNT 4] *)
Definition MOTOR_COUNT : nat := 4.

(** ** Floating point

    [float] is IEEE binary32 and [double] binary64, both taken from the
    executable specification [SpecFloat] (round to nearest, ties to
    even). *)
Module Float.

Definition float := spec_float.

Definition prec32 : Z := 24.
Definition emax32 : Z := 128.
Definition prec64 : Z := 53.
Definition emax64 : Z := 1024.

(** Integer to [float] / [double] conversion. *)
Definition f32_of_int (n : Z) : float := binary_normalize prec32 emax32 n 0 false.
Definition f64_of_int (n : Z) : float := binary_normalize prec64 emax64 n 0 false.

Definition f32_mul : float -> float -> float := SFmul prec32 emax32.
Definition f64_mul : float -> float -> float := SFmul prec64 emax64.
Definition f64_div : float -> float -> float := SFdiv prec64 emax64.

(** [double] to [float]: the value is rounded again, to 24 bits. *)
Definition f32_of_f64 (x : float) : float :=
  match x with
  | S754_finite s m e =>
      binary_normalize prec32 emax32 (if s then Z.neg m else Z.pos m) e s
  | _ => x
  end.

(** [float] to [double] is exact: every binary32 value is a binary64 value. *)
Definition f64_of_f32 (x : float) : float := x.

(** A decimal [double] literal [num/den]: the nearest binary64 value
    (one correctly rounded division of two exact integers). *)
Definition f64_literal (num den : Z) : float :=
  f64_div (f64_of_int num) (f64_of_int den).

(** [float] to [long]: the fraction is discarded (truncation toward
    zero).  Only finite values that fit are of interest here. *)
Definition long_of_float (x : float) : Z :=
  match x with
  | S754_finite s m e =>
      let a := if 0 <=? e then Z.pos m * 2 ^ e else Z.pos m / 2 ^ (- e) in
      if s then - a else a
  | _ => 0
  end.

(** The rational number a finite float stands for. *)
Definition Q_of_float (x : float) : Q :=
  match x with
  | S754_finite s m e =>
      let a := if 0 <=? e then inject_Z (Z.pos m * 2 ^ e)
               else Z.pos m # Z.to_pos (2 ^ (- e)) in
      if s then Qopp a else a
  | _ => 0%Q
  end.

End Float.
Import Float.

(** ** Motor geometry (both sketches) *)

(** First sketch, lines 19-22:
    [const int MICROSTEPS = 16; const int STEPS_PER_REV = 200 * MICROSTEPS;
     const float DEGREES_PER_DIGIT = 32.72;
     const float STEPS_PER_DIGIT = (STEPS_PER_REV * DEGREES_PER_DIGIT) / 360.0;]
    The product is a [float] product; the division by the [double] literal
    [360.0] is done in [double] and rounded back to [float]. *)
Definition MICROSTEPS : Z := 16.
Definition STEPS_PER_REV : Z := 200 * MICROSTEPS.
Definition DEGREES_PER_DIGIT : float := f32_of_f64 (f64_literal 3272 100).
Definition STEPS_PER_DIGIT : float :=
  f32_of_f64
    (f64_div (f64_of_f32 (f32_mul (f32_of_int STEPS_PER_REV) DEGREES_PER_DIGIT))
             (f64_literal 360 1)).

(** Second sketch, lines 258-261: [DEG_PER_DIGIT] is a macro for the
    [double] literal, so the whole expression is evaluated in [double]
    and rounded to [float] once. *)
Definition DEG_PER_DIGIT : float := f64_literal 3272 100.
Definition STEPS_PER_DIGIT_2 : float :=
  f32_of_f64
    (f64_div (f64_mul (f64_of_int STEPS_PER_REV) DEG_PER_DIGIT)
             (f64_literal 360 1)).

(** The same quantity over the rationals: (200 * 16 * 32.72) / 360. *)
Definition STEPS_PER_DIGIT_exact : Q :=
  (inject_Z (200 * 16) * (3272 # 100)) / inject_Z 360.

(** ** RTClib: [DateTime]

    The sketches read three things from a [DateTime]: [hour()] and
    [minute()] (both [uint8_t]) and [unixtime()] ([uint32_t]). *)
Record DateTime : Type := mkDateTime {
  hour : Z;
  minute : Z;
  unixtime : Z
}.

(** What RTClib hands out: an hour of the day, a minute of the hour and
    an epoch that fits 32 bits. *)
Definition valid_DateTime (dt : DateTime) : Prop :=
  0 <= hour dt < 24 /\ 0 <= minute dt < 60 /\ is_uint32 (unixtime dt).

(** ** AccelStepper

    Of the library the sketches use [moveTo], [distanceToGo] and [run].
    A stepper is its current and its target position; [run] makes at
    most one step toward the target, and only when a step is due. *)
Record AccelStepper : Type := mkStepper {
  currentPosition : Z;
  targetPosition : Z
}.

Definition moveTo (absolute : Z) (m : AccelStepper) : AccelStepper :=
  mkStepper (currentPosition m) absolute.

Definition distanceToGo (m : AccelStepper) : Z :=
  targetPosition m - currentPosition m.

Definition run (due : bool) (m : AccelStepper) : AccelStepper :=
  if due then
    mkStepper (currentPosition m + Z.sgn (distanceToGo m)) (targetPosition m)
  else m.

(** ** What the clock does, as seen from outside

    [Publish axis digit]: a producer wrote a target for [axis] and raised
    its flag.  [Persist epoch]: [saveState] committed [epoch] to EEPROM.
    [MoveTo axis target]: the task of [axis] took the published target and
    called [moveTo target]. *)
Inductive Event : Type :=
| Publish (axis : nat) (digit : Z)
| Persist (epoch : Z)
| MoveTo (axis : nat) (target : Z).

Definition durable_writes (tr : list Event) : list Z :=
  omap (fun e => match e with Persist t => Some t | _ => None end) tr.

(** Where a [motorTask] stands in its loop body:
    - [AtPoll]: at the test [if (moveFlag[idx])] (also during [vTaskDelay(10)]);
    - [InMove]: at the test of [while (distanceToGo() != 0)];
    - [AtClear]: the inner loop is left, [moveFlag[idx] = false] comes next.
    A scheduling quantum takes the task from one of these points to the
    next; the other tasks and the producers run between quanta. *)
Inductive Pc : Type := AtPoll | InMove | AtClear.

(** * The first sketch *)
Module Sketch1.

(** The globals [motorTargets], [motorMoveFlags], [motors], the
    [unsigned long] at EEPROM address 0, and for each task its place in
    [motorTask]. *)
Record State : Type := mkState {
  motorTargets : list Z;
  motorMoveFlags : list bool;
  motors : list AccelStepper;
  EEPROM : Z;
  taskPc : list Pc;
  trace : list Event
}.

Definition wf (st : State) : Prop :=
  length (motorTargets st) = MOTOR_COUNT /\
  length (motorMoveFlags st) = MOTOR_COUNT /\
  length (motors st) = MOTOR_COUNT /\
  length (taskPc st) = MOTOR_COUNT.

(** The globals as initialised, before [setup] reads the EEPROM. *)
Definition boot (eeprom : Z) : State :=
  mkState (replicate MOTOR_COUNT 0) (replicate MOTOR_COUNT false)
          (replicate MOTOR_COUNT (mkStepper 0 0)) eeprom
          (replicate MOTOR_COUNT AtPoll) [].

(** [void saveState(uint32_t epoch)]: write and commit. *)
Definition saveState (epoch : Z) (st : State) : State :=
  mkState (motorTargets st) (motorMoveFlags st) (motors st) epoch
          (taskPc st) (trace st ++ [Persist epoch]).

(** [uint32_t loadState()] *)
Definition loadState (st : State) : Z := EEPROM st.

(** [void moveToDigit(uint8_t motor, uint8_t digit)] *)
Definition moveToDigit (motor : nat) (digit : Z) (st : State) : State :=
  mkState (<[motor := digit]> (motorTargets st))
          (<[motor := true]> (motorMoveFlags st))
          (motors st) (EEPROM st) (taskPc st)
          (trace st ++ [Publish motor digit]).

(** The initialiser of [uint8_t digits[4]] in [updateDisplay]. *)
Definition digits (dt : DateTime) : list Z :=
  [ to_uint8 ((if negb (hour dt mod 12 =? 0) then hour dt mod 12 else 12) / 10);
    to_uint8 ((if negb (hour dt mod 12 =? 0) then hour dt mod 12 else 12) mod 10);
    to_uint8 (minute dt / 10);
    to_uint8 (minute dt mod 10) ].

(** [for (i = 0; i < MOTOR_COUNT; i++) moveToDigit(i, digits[i]);] *)
Fixpoint publish_from (i : nat) (ds : list Z) (st : State) : State :=
  match ds with
  | [] => st
  | d :: ds' => publish_from (S i) ds' (moveToDigit i d st)
  end.

(** [void updateDisplay(const DateTime& dt)] *)
Definition updateDisplay (dt : DateTime) (st : State) : State :=
  saveState (unixtime dt) (publish_from 0 (digits dt) st).

(** [long target = motorTargets[motorIndex] * STEPS_PER_DIGIT;]
    an [int] times a [float], truncated to [long]. *)
Definition motorTask_target (digit : Z) : Z :=
  long_of_float (f32_mul (f32_of_int digit) STEPS_PER_DIGIT).

(** One scheduling quantum of [motorTask(motorIndex)].  [due] tells
    whether [run()] finds a step due. *)
Definition motorTask (motorIndex : nat) (due : bool) (st : State) : State :=
  match (taskPc st !! motorIndex : option Pc),
        (motorMoveFlags st !! motorIndex : option bool),
        (motorTargets st !! motorIndex : option Z),
        (motors st !! motorIndex : option AccelStepper) with
  | Some pc, Some flag, Some digit, Some m =>
      match pc with
      | AtPoll =>
          if flag then
            let target := motorTask_target digit in
            mkState (motorTargets st) (motorMoveFlags st)
                    (<[motorIndex := moveTo target m]> (motors st))
                    (EEPROM st)
                    (<[motorIndex := InMove]> (taskPc st))
                    (trace st ++ [MoveTo motorIndex target])
          else st
      | InMove =>
          if distanceToGo m =? 0 then
            mkState (motorTargets st) (motorMoveFlags st) (motors st)
                    (EEPROM st)
                    (<[motorIndex := AtClear]> (taskPc st)) (trace st)
          else
            mkState (motorTargets st) (motorMoveFlags st)
                    (<[motorIndex := run due m]> (motors st))
                    (EEPROM st) (taskPc st) (trace st)
      | AtClear =>
          mkState (motorTargets st)
                  (<[motorIndex := false]> (motorMoveFlags st))
                  (motors st) (EEPROM st)
                  (<[motorIndex := AtPoll]> (taskPc st)) (trace st)
      end
  | _, _, _, _ => st
  end.

(** The task of one axis running alone for a while; one entry of
    [sched] per quantum. *)
Definition run_task (motorIndex : nat) (sched : list bool) (st : State) : State :=
  fold_left (fun s due => motorTask motorIndex due s) sched st.

(** The recovery test of [setup] (lines 197-203): the epoch to show,
    if any. *)
Definition planRecovery (storedTime currentTime : Z) : option Z :=
  if 0 <? storedTime then
    if sub32 currentTime storedTime <? 86400 then
      Some (add32 storedTime (sub32 currentTime storedTime))
    else None
  else None.

Section Setup.
(** RTClib's constructor [DateTime(uint32_t)]. *)
Variable DateTime_of_epoch : Z -> DateTime.

(** Lines 197-203 of [setup]; [now] is [rtc.now()]. *)
Definition setup_recovery (now : DateTime) (st : State) : State :=
  match planRecovery (loadState st) (unixtime now) with
  | Some t => updateDisplay (DateTime_of_epoch t) st
  | None => st
  end.
End Setup.

(** ** The rest of the first sketch *)

(** What [server.send] answers: status code and text. *)
Definition Response : Type := (Z * string)%type.

(** The board together with what else the sketch keeps between calls:
    [static uint8_t lastMinute] of [loop], and the times handed to
    [rtc.adjust], oldest first. *)
Record Device : Type := mkDevice {
  board : State;
  lastMinute : Z;
  adjusted : list DateTime
}.

(** The two writes of [moveToDigit], one at a time:
    [motorTargets[motor] = digit;] makes the digit visible, and
    [motorMoveFlags[motor] = true;] raises the flag. *)
Definition store_target (motor : nat) (digit : Z) (st : State) : State :=
  mkState (<[motor := digit]> (motorTargets st)) (motorMoveFlags st)
          (motors st) (EEPROM st) (taskPc st)
          (trace st ++ [Publish motor digit]).

Definition raise_flag (motor : nat) (st : State) : State :=
  mkState (motorTargets st) (<[motor := true]> (motorMoveFlags st))
          (motors st) (EEPROM st) (taskPc st) (trace st).

(** Quanta of several tasks, in the order given. *)
Definition quanta (qs : list (nat * bool)) (st : State) : State :=
  fold_left (fun s q => motorTask (fst q) (snd q) s) qs st.

(** What can happen next on the board: a quantum of one task, a
    [moveToDigit] of the producer, with the task quanta that are scheduled
    between its two writes, or a [saveState]. *)
Inductive Step : Type :=
| Quantum (idx : nat) (due : bool)
| Publication (motor : nat) (digit : Z) (between : list (nat * bool))
| Save (epoch : Z).

Definition step (a : Step) (st : State) : State :=
  match a with
  | Quantum idx due => motorTask idx due st
  | Publication motor digit between =>
      raise_flag motor (quanta between (store_target motor digit st))
  | Save epoch => saveState epoch st
  end.

Definition exec (sched : list Step) (st : State) : State :=
  fold_left (fun s a => step a s) sched st.

Section Handlers.
(** RTClib's constructor [DateTime(uint32_t)]. *)
Variable DateTime_of_epoch : Z -> DateTime.

(** [void handleSetTime()]; [epoch_arg] is [server.arg("epoch").toInt()]
    when the argument is there: a 32-bit [long], so a value in
    [-2^31, 2^31), which the assignment converts to [uint32_t]. *)
Definition handleSetTime (epoch_arg : option Z) (dv : Device) : Device * Response :=
  match epoch_arg with
  | Some n =>
      let epoch := to_uint32 n in
      (mkDevice (updateDisplay (DateTime_of_epoch epoch) (board dv))
                (lastMinute dv)
                (adjusted dv ++ [DateTime_of_epoch epoch]),
       (200, "Time set successfully!"%string))
  | None => (dv, (400, "Missing epoch parameter"%string))
  end.

(** [void setup()], up to the first [loop]: zeroed globals, the recovery
    test on what the EEPROM holds, and [lastMinute] at its initial 255.
    [now] is the [rtc.now()] of line 199. *)
Definition setup (now : DateTime) (eeprom : Z) : Device :=
  mkDevice (setup_recovery DateTime_of_epoch now (boot eeprom)) 255 [].
End Handlers.

(** [void loop()]; [now] is [rtc.now()], and [handleClient] is what
    [server.handleClient()] does in this round (the handler of a pending
    request, or nothing). *)
Definition loop (now : DateTime) (handleClient : Device -> Device) (dv : Device) : Device :=
  let dv :=
    if negb (minute now =? lastMinute dv) then
      mkDevice (updateDisplay now (board dv)) (to_uint8 (minute now)) (adjusted dv)
    else dv in
  handleClient dv.

(** Rounds of [loop] with no request pending, one per clock reading. *)
Definition loops (nows : list DateTime) (dv : Device) : Device :=
  fold_left (fun d now => loop now (fun d' => d') d) nows dv.

End Sketch1.

(** * The second sketch *)
Module Sketch2.

(** The globals [targetSteps], [moveFlag], [steppers], and for each
    task its place in [motorTask].  This sketch has no EEPROM. *)
Record State : Type := mkState {
  targetSteps : list float;
  moveFlag : list bool;
  steppers : list AccelStepper;
  taskPc : list Pc;
  trace : list Event
}.

Definition wf (st : State) : Prop :=
  length (targetSteps st) = MOTOR_COUNT /\
  length (moveFlag st) = MOTOR_COUNT /\
  length (steppers st) = MOTOR_COUNT /\
  length (taskPc st) = MOTOR_COUNT.

(** The globals as initialised; [setup] sets every position to 0. *)
Definition boot : State :=
  mkState (replicate MOTOR_COUNT (S754_zero false))
          (replicate MOTOR_COUNT false)
          (replicate MOTOR_COUNT (mkStepper 0 0))
          (replicate MOTOR_COUNT AtPoll) [].

(** [if (digit > 10) digit = 10;] *)
Definition clamp (digit : Z) : Z := if 10 <? digit then 10 else digit.

(** [digit * STEPS_PER_DIGIT]: the [uint8_t] is promoted and converted
    to [float], the product is a [float] product. *)
Definition steps_of_digit (digit : Z) : float :=
  f32_mul (f32_of_int digit) STEPS_PER_DIGIT_2.

(** [void setMotorDigit(uint8_t index, uint8_t digit)] *)
Definition setMotorDigit (index : nat) (digit : Z) (st : State) : State :=
  let digit := clamp digit in
  mkState (<[index := steps_of_digit digit]> (targetSteps st))
          (<[index := true]> (moveFlag st))
          (steppers st) (taskPc st)
          (trace st ++ [Publish index digit]).

(** [void updateDisplay(const DateTime& dt)] *)
Definition updateDisplay (dt : DateTime) (st : State) : State :=
  let hour := to_uint8 (hour dt mod 12) in
  let hour := if hour =? 0 then 12 else hour in
  let st := setMotorDigit 0 (to_uint8 (hour / 10)) st in
  let st := setMotorDigit 1 (to_uint8 (hour mod 10)) st in
  let st := setMotorDigit 2 (to_uint8 (minute dt / 10)) st in
  setMotorDigit 3 (to_uint8 (minute dt mod 10)) st.

(** [steppers[idx].moveTo(targetSteps[idx])]: [moveTo] takes a [long],
    the [float] is truncated. *)
Definition motorTask_target (steps : float) : Z := long_of_float steps.

(** One scheduling quantum of [motorTask(idx)]. *)
Definition motorTask (idx : nat) (due : bool) (st : State) : State :=
  match (taskPc st !! idx : option Pc),
        (moveFlag st !! idx : option bool),
        (targetSteps st !! idx : option float),
        (steppers st !! idx : option AccelStepper) with
  | Some pc, Some flag, Some steps, Some m =>
      match pc with
      | AtPoll =>
          if flag then
            let target := motorTask_target steps in
            mkState (targetSteps st) (moveFlag st)
                    (<[idx := moveTo target m]> (steppers st))
                    (<[idx := InMove]> (taskPc st))
                    (trace st ++ [MoveTo idx target])
          else st
      | InMove =>
          if distanceToGo m =? 0 then
            mkState (targetSteps st) (moveFlag st) (steppers st)
                    (<[idx := AtClear]> (taskPc st)) (trace st)
          else
            mkState (targetSteps st) (moveFlag st)
                    (<[idx := run due m]> (steppers st))
                    (taskPc st) (trace st)
      | AtClear =>
          mkState (targetSteps st) (<[idx := false]> (moveFlag st))
                  (steppers st)
                  (<[idx := AtPoll]> (taskPc st)) (trace st)
      end
  | _, _, _, _ => st
  end.

Definition run_task (idx : nat) (sched : list bool) (st : State) : State :=
  fold_left (fun s due => motorTask idx due s) sched st.

(** The query of a [/setdigit] request: [server.hasArg] and
    [server.arg(..).toInt()] for ["motor"] and ["digit"]. *)
Record Request : Type := mkRequest {
  arg_motor : option Z;
  arg_digit : option Z
}.

(** What [server.send] answers: status code and text. *)
Definition Response : Type := (Z * string)%type.

(** [void handleManualSet()] *)
Definition handleManualSet (req : Request) (st : State) : State * Response :=
  match arg_motor req, arg_digit req with
  | Some motor, Some digit =>
      if (0 <=? motor) && (motor <? Z.of_nat MOTOR_COUNT)
         && (0 <=? digit) && (digit <=? 10)
      then (setMotorDigit (Z.to_nat (to_uint8 motor)) (to_uint8 digit) st,
            (200, "Digit set"%string))
      else (st, (400, "Invalid range"%string))
  | _, _ => (st, (400, "Missing args"%string))
  end.

(** ** The rest of the second sketch *)

Record Device : Type := mkDevice {
  board : State;
  lastMinute : Z;
  adjusted : list DateTime
}.

(** The two writes of [setMotorDigit], one at a time:
    [targetSteps[index] = digit * STEPS_PER_DIGIT;] makes the step count
    visible, and [moveFlag[index] = true;] raises the flag. *)
Definition store_target (index : nat) (digit : Z) (st : State) : State :=
  let digit := clamp digit in
  mkState (<[index := steps_of_digit digit]> (targetSteps st)) (moveFlag st)
          (steppers st) (taskPc st)
          (trace st ++ [Publish index digit]).

Definition raise_flag (index : nat) (st : State) : State :=
  mkState (targetSteps st) (<[index := true]> (moveFlag st))
          (steppers st) (taskPc st) (trace st).

Definition quanta (qs : list (nat * bool)) (st : State) : State :=
  fold_left (fun s q => motorTask (fst q) (snd q) s) qs st.

(** What can happen next on the board: a quantum of one task, or a
    [setMotorDigit] of the producer with the task quanta that are
    scheduled between its two writes. *)
Inductive Step : Type :=
| Quantum (idx : nat) (due : bool)
| Publication (index : nat) (digit : Z) (between : list (nat * bool)).

Definition step (a : Step) (st : State) : State :=
  match a with
  | Quantum idx due => motorTask idx due st
  | Publication index digit between =>
      raise_flag index (quanta between (store_target index digit st))
  end.

Definition exec (sched : list Step) (st : State) : State :=
  fold_left (fun s a => step a s) sched st.

Section Handlers.
(** RTClib's constructor [DateTime(uint32_t)]. *)
Variable DateTime_of_epoch : Z -> DateTime.

(** [void handleSetTime()]; [epoch_arg] is [server.arg("epoch").toInt()]
    when the argument is there: a 32-bit [long], so a value in
    [-2^31, 2^31). *)
Definition handleSetTime (epoch_arg : option Z) (dv : Device) : Device * Response :=
  match epoch_arg with
  | Some n =>
      let ts := to_uint32 n in
      (mkDevice (updateDisplay (DateTime_of_epoch ts) (board dv))
                (lastMinute dv)
                (adjusted dv ++ [DateTime_of_epoch ts]),
       (200, "Time updated"%string))
  | None => (dv, (400, "Missing epoch"%string))
  end.
End Handlers.

(** [void setup()]: the tasks are created, then [updateDisplay(rtc.now())]. *)
Definition setup (now : DateTime) : Device :=
  mkDevice (updateDisplay now boot) 255 [].

(** [void loop()]: here [server.handleClient()] comes first. *)
Definition loop (handleClient : Device -> Device) (now : DateTime) (dv : Device) : Device :=
  let dv := handleClient dv in
  if negb (minute now =? lastMinute dv) then
    mkDevice (updateDisplay now (board dv)) (to_uint8 (minute now)) (adjusted dv)
  else dv.

Definition loops (nows : list DateTime) (dv : Device) : Device :=
  fold_left (fun d now => loop (fun d' => d') now d) nows dv.

End Sketch2.

(** * Vocabulary of the properties *)

(** The 12-hour value of the specification: [hour % 12], 12 when that is 0. *)
Definition hour12 (h : Z) : Z := if h mod 12 =? 0 then 12 else h mod 12.

(** The four digits of a clock reading, for the axes HourTens, HourUnits,
    MinuteTens, MinuteUnits (0, 1, 2, 3). *)
Definition clock_digits (dt : DateTime) : list Z :=
  [ hour12 (hour dt) / 10; hour12 (hour dt) mod 10;
    minute dt / 10; minute dt mod 10 ].

Definition publish_all (ds : list Z) : list Event :=
  imap (fun i d => Publish i d) ds.

(** An axis has nothing to take when its task is not at the poll, or is
    there with the flag down. *)
Definition Sketch1_quiet (idx : nat) (st : Sketch1.State) : Prop :=
  Sketch1.taskPc st !! idx = Some AtPoll ->
  Sketch1.motorMoveFlags st !! idx = Some false.

Definition Sketch2_quiet (idx : nat) (st : Sketch2.State) : Prop :=
  Sketch2.taskPc st !! idx = Some AtPoll ->
  Sketch2.moveFlag st !! idx = Some false.

(** The digit most recently published to an axis, if any. *)
Definition last_published (axis : nat) (tr : list Event) : option Z :=
  last (omap (fun e => match e with
                       | Publish a d => if decide (a = axis) then Some d else None
                       | _ => None
                       end) tr).

(** Every [moveTo] of a task goes to the step count of the digit that
    was published last to its axis; [conv] turns a digit into steps. *)
Definition moves_follow_publishes (conv : Z -> Z) (tr : list Event) : Prop :=
  forall pre axis t post,
    tr = pre ++ MoveTo axis t :: post ->
    exists d, last_published axis pre = Some d /\ t = conv d.

(** What holds of a board however producer and tasks are scheduled: a
    raised flag has a publish behind it, a slot holds what was published
    last, and the moves so far followed the publishes. *)
Definition Sketch1_board_inv (st : Sketch1.State) : Prop :=
  Sketch1.wf st /\
  (forall i, Sketch1.motorMoveFlags st !! i = Some true ->
             last_published i (Sketch1.trace st) <> None) /\
  (forall i d, (i < MOTOR_COUNT)%nat ->
               last_published i (Sketch1.trace st) = Some d ->
               Sketch1.motorTargets st !! i = Some d) /\
  moves_follow_publishes Sketch1.motorTask_target (Sketch1.trace st).

Definition Sketch2_board_inv (st : Sketch2.State) : Prop :=
  Sketch2.wf st /\
  (forall i, Sketch2.moveFlag st !! i = Some true ->
             last_published i (Sketch2.trace st) <> None) /\
  (forall i d, (i < MOTOR_COUNT)%nat ->
               last_published i (Sketch2.trace st) = Some d ->
               Sketch2.targetSteps st !! i = Some (Sketch2.steps_of_digit d)) /\
  moves_follow_publishes
    (fun d => Sketch2.motorTask_target (Sketch2.steps_of_digit d))
    (Sketch2.trace st).

(** What belongs to one axis: its slot, its flag, its stepper and the
    place of its task. *)
Definition Sketch1_axis (j : nat) (st : Sketch1.State)
  : option Z * option bool * option AccelStepper * option Pc :=
  (Sketch1.motorTargets st !! j, Sketch1.motorMoveFlags st !! j,
   Sketch1.motors st !! j, Sketch1.taskPc st !! j).

Definition Sketch2_axis (j : nat) (st : Sketch2.State)
  : option float * option bool * option AccelStepper * option Pc :=
  (Sketch2.targetSteps st !! j, Sketch2.moveFlag st !! j,
   Sketch2.steppers st !! j, Sketch2.taskPc st !! j).

(** A step that is neither a quantum of axis [j] nor a publish to it. *)
Definition Sketch1_avoids (j : nat) (a : Sketch1.Step) : Prop :=
  match a with
  | Sketch1.Quantum idx _ => idx <> j
  | Sketch1.Publication motor _ between =>
      motor <> j /\ Forall (fun q => fst q <> j) between
  | Sketch1.Save _ => True
  end.

Definition Sketch2_avoids (j : nat) (a : Sketch2.Step) : Prop :=
  match a with
  | Sketch2.Quantum idx _ => idx <> j
  | Sketch2.Publication index _ between =>
      index <> j /\ Forall (fun q => fst q <> j) between
  end.

(** A step that is no quantum of the task of axis [j]; it may publish
    to any axis, [j] included. *)
Definition Sketch1_spares (j : nat) (a : Sketch1.Step) : Prop :=
  match a with
  | Sketch1.Quantum idx _ => idx <> j
  | Sketch1.Publication _ _ between => Forall (fun q => fst q <> j) between
  | Sketch1.Save _ => True
  end.

Definition Sketch2_spares (j : nat) (a : Sketch2.Step) : Prop :=
  match a with
  | Sketch2.Quantum idx _ => idx <> j
  | Sketch2.Publication _ _ between => Forall (fun q => fst q <> j) between
  end.

(** The step target of a digit, as a number: the integer part of
    d * 13088 / 45. *)
Definition digit_target (d : Z) : Z := d * 13088 / 45.

(** A stepper at rest on a position. *)
Definition rest_at (t : Z) : AccelStepper := mkStepper t t.

(** The quanta of one whole move to [target] by a task whose stepper is
    [m]: the quantum that takes the slot, one quantum per step to make,
    the quantum that sees the move done and the one that clears the
    flag. *)
Definition move_quanta (target : Z) (m : AccelStepper) : list bool :=
  true :: replicate (Z.to_nat (Z.abs (target - currentPosition m))) true
       ++ [true; true].

(** The values of a [long], which is what [toInt()] returns: 32 bits on
    the ESP32. *)
Definition is_long (n : Z) : Prop := - 2 ^ 31 <= n < 2 ^ 31.

(** * Properties *)

Lemma to_uint8_small (n : Z) : 0 <= n < 256 -> to_uint8 n = n.
Proof. intros H. unfold to_uint8. apply Z.mod_small. lia. Qed.

(** A digit or the blank is one of eleven values. *)
Lemma digit_cases (d : Z) :
  0 <= d <= 10 ->
  d = 0 \/ d = 1 \/ d = 2 \/ d = 3 \/ d = 4 \/ d = 5 \/
  d = 6 \/ d = 7 \/ d = 8 \/ d = 9 \/ d = 10.
Proof. lia. Qed.

Ltac each_digit d H :=
  let C := fresh "C" in
  pose proof (digit_cases d H) as C;
  repeat (destruct C as [C | C]; [subst d | ]); [ .. | subst d].

(** ** Digit geometry *)

Example STEPS_PER_DIGIT_value :
  STEPS_PER_DIGIT = S754_finite false 9530391 (-15).
Proof. vm_compute. reflexivity. Qed.

Example STEPS_PER_DIGIT_2_value : STEPS_PER_DIGIT_2 = STEPS_PER_DIGIT.
Proof. vm_compute. reflexivity. Qed.

Example STEPS_PER_DIGIT_exact_value : (STEPS_PER_DIGIT_exact == 13088 # 45)%Q.
Proof. vm_compute. reflexivity. Qed.

(** C1, as stated, does not hold.  The step target is an integer and the
    quantity d * STEPS_PER_DIGIT is not: for digit 1 the first sketch
    moves to 290, the second to 290 as well, and for the blank both move
    to 2908, while STEPS_PER_DIGIT is 290.84...; the [float] the second
    sketch stores for digit 3 is a rounded product, neither 3 times the
    [float] constant nor 3 times the exact ratio. *)
Lemma C1_counterexample :
  ~ (inject_Z (Sketch1.motorTask_target 1) == 1 * STEPS_PER_DIGIT_exact)%Q /\
  ~ (inject_Z (Sketch1.motorTask_target 1) == 1 * Q_of_float STEPS_PER_DIGIT)%Q /\
  ~ (inject_Z (Sketch2.motorTask_target (Sketch2.steps_of_digit 1))
       == 1 * STEPS_PER_DIGIT_exact)%Q /\
  ~ (inject_Z (Sketch1.motorTask_target 10) == 10 * STEPS_PER_DIGIT_exact)%Q /\
  ~ (Q_of_float (Sketch2.steps_of_digit 3) == 3 * Q_of_float STEPS_PER_DIGIT_2)%Q /\
  ~ (Q_of_float (Sketch2.steps_of_digit 3) == 3 * STEPS_PER_DIGIT_exact)%Q.
Proof.
  repeat split; vm_compute; discriminate.
Qed.

(** C1, amended: for every digit d in [0,9] and for the blank (10), the
    step target handed to the stepper is d * STEPS_PER_DIGIT computed in
    single precision and truncated toward zero; in both sketches this is
    the integer part of d * (200 * 16 * 32.72) / 360, that is of
    d * 13088 / 45. *)
Theorem C1_target_is_truncated_product (d : Z) :
  0 <= d <= 10 ->
  Sketch1.motorTask_target d
    = long_of_float (f32_mul (f32_of_int d) STEPS_PER_DIGIT) /\
  Sketch2.motorTask_target (Sketch2.steps_of_digit d)
    = long_of_float (f32_mul (f32_of_int d) STEPS_PER_DIGIT_2) /\
  Sketch1.motorTask_target d = Qfloor (inject_Z d * STEPS_PER_DIGIT_exact) /\
  Sketch2.motorTask_target (Sketch2.steps_of_digit d)
    = Qfloor (inject_Z d * STEPS_PER_DIGIT_exact) /\
  Qfloor (inject_Z d * STEPS_PER_DIGIT_exact) = d * 13088 / 45.
Proof.
  intros H. each_digit d H; vm_compute; repeat split; reflexivity.
Qed.

Lemma C1_target_is_truncated_product_witness :
  Sketch1.motorTask_target 9 = 2617 /\
  Sketch2.motorTask_target (Sketch2.steps_of_digit 10) = 2908.
Proof.
  destruct (C1_target_is_truncated_product 9 ltac:(lia)) as (_ & _ & H9 & _).
  destruct (C1_target_is_truncated_product 10 ltac:(lia)) as (_ & _ & _ & H10 & _).
  split; [rewrite H9 | rewrite H10]; reflexivity.
Defined.

(** ** The display *)

Lemma hour12_range (h : Z) : 1 <= hour12 h <= 12.
Proof.
  unfold hour12. destruct (h mod 12 =? 0) eqn:E; [lia |].
  apply Z.eqb_neq in E. pose proof (Z.mod_pos_bound h 12). lia.
Qed.

Lemma Sketch1_digits_clock (dt : DateTime) :
  valid_DateTime dt -> Sketch1.digits dt = clock_digits dt.
Proof.
  intros (Hh & Hm & _). unfold Sketch1.digits, clock_digits.
  pose proof (hour12_range (hour dt)) as Hr.
  replace (if negb (hour dt mod 12 =? 0) then hour dt mod 12 else 12)
    with (hour12 (hour dt))
    by (unfold hour12; destruct (hour dt mod 12 =? 0); reflexivity).
  rewrite !to_uint8_small; [reflexivity | (Z.div_mod_to_equations; lia) ..].
Qed.

Lemma Sketch1_updateDisplay_trace (dt : DateTime) (st : Sketch1.State) :
  Sketch1.trace (Sketch1.updateDisplay dt st)
  = Sketch1.trace st ++ publish_all (Sketch1.digits dt) ++ [Persist (unixtime dt)].
Proof.
  unfold Sketch1.updateDisplay, Sketch1.digits. simpl.
  rewrite <- !app_assoc. reflexivity.
Qed.

Lemma Sketch1_updateDisplay_board (dt : DateTime) (st : Sketch1.State) :
  Sketch1.wf st ->
  Sketch1.motorTargets (Sketch1.updateDisplay dt st) = Sketch1.digits dt /\
  Sketch1.motorMoveFlags (Sketch1.updateDisplay dt st) = [true; true; true; true].
Proof.
  intros (Ht & Hf & _). destruct st as [ts fs ms e ps tr]. simpl in *.
  destruct ts as [|? [|? [|? [|? [|? ?]]]]]; try discriminate.
  destruct fs as [|? [|? [|? [|? [|? ?]]]]]; try discriminate.
  split; reflexivity.
Qed.

Lemma clamp_small (d : Z) : d <= 10 -> Sketch2.clamp d = d.
Proof. intros H. unfold Sketch2.clamp. destruct (10 <? d) eqn:E; lia. Qed.

Lemma clamp_min (d : Z) : Sketch2.clamp d = Z.min d 10.
Proof. unfold Sketch2.clamp. destruct (10 <? d) eqn:E; lia. Qed.

Lemma clock_digits_range (dt : DateTime) :
  valid_DateTime dt -> Forall (fun d => 0 <= d <= 9) (clock_digits dt).
Proof.
  intros (Hh & Hm & _). pose proof (hour12_range (hour dt)) as Hr.
  unfold clock_digits. repeat constructor; Z.div_mod_to_equations; lia.
Qed.

(** With a valid reading the second [updateDisplay] is four plain calls
    of [setMotorDigit], one per clock digit. *)
Lemma Sketch2_updateDisplay_calls (dt : DateTime) (st : Sketch2.State) :
  valid_DateTime dt ->
  Sketch2.updateDisplay dt st
  = Sketch2.setMotorDigit 3 (minute dt mod 10)
      (Sketch2.setMotorDigit 2 (minute dt / 10)
         (Sketch2.setMotorDigit 1 (hour12 (hour dt) mod 10)
            (Sketch2.setMotorDigit 0 (hour12 (hour dt) / 10) st))).
Proof.
  intros (Hh & Hm & _). unfold Sketch2.updateDisplay.
  pose proof (hour12_range (hour dt)) as Hr.
  rewrite (to_uint8_small (hour dt mod 12)) by (Z.div_mod_to_equations; lia).
  change (if hour dt mod 12 =? 0 then 12 else hour dt mod 12)
    with (hour12 (hour dt)).
  rewrite !to_uint8_small by (Z.div_mod_to_equations; lia).
  reflexivity.
Qed.

Lemma Sketch2_updateDisplay_trace (dt : DateTime) (st : Sketch2.State) :
  valid_DateTime dt ->
  Sketch2.trace (Sketch2.updateDisplay dt st)
  = Sketch2.trace st ++ publish_all (clock_digits dt).
Proof.
  intros Hv. rewrite Sketch2_updateDisplay_calls by exact Hv.
  pose proof (clock_digits_range dt Hv) as Hr. unfold clock_digits in *.
  repeat match goal with
         | H : Forall _ (_ :: _) |- _ => apply Forall_cons in H; destruct H
         end.
  unfold Sketch2.setMotorDigit. simpl.
  rewrite !clamp_small by lia. rewrite <- !app_assoc. reflexivity.
Qed.

Lemma Sketch2_updateDisplay_board (dt : DateTime) (st : Sketch2.State) :
  valid_DateTime dt -> Sketch2.wf st ->
  Sketch2.targetSteps (Sketch2.updateDisplay dt st)
  = map Sketch2.steps_of_digit (clock_digits dt) /\
  Sketch2.moveFlag (Sketch2.updateDisplay dt st) = [true; true; true; true].
Proof.
  intros Hv (Ht & Hf & _). rewrite Sketch2_updateDisplay_calls by exact Hv.
  pose proof (clock_digits_range dt Hv) as Hr. unfold clock_digits in *.
  repeat match goal with
         | H : Forall _ (_ :: _) |- _ => apply Forall_cons in H; destruct H
         end.
  destruct st as [ts fs ms ps tr]. unfold Sketch2.setMotorDigit. simpl in *.
  rewrite !clamp_small by lia.
  destruct ts as [|? [|? [|? [|? [|? ?]]]]]; try discriminate.
  destruct fs as [|? [|? [|? [|? [|? ?]]]]]; try discriminate.
  split; reflexivity.
Qed.

(** C2: for every timestamp, [updateDisplay] publishes the four digits
    [h/10, h%10, minute/10, minute%10] to the axes 0 (HourTens),
    1 (HourUnits), 2 (MinuteTens), 3 (MinuteUnits), in this order, where h
    is [hour % 12] with 12 for 0.  The first sketch leaves the digits in
    [motorTargets], the second their step counts in [targetSteps]; both
    raise all four flags.  Hours 0 and 12 give the hour digits 1, 2 and
    hour 13 gives 0, 1. *)
Theorem C2_updateDisplay_publishes_clock_digits
    (dt : DateTime) (s1 : Sketch1.State) (s2 : Sketch2.State) :
  valid_DateTime dt -> Sketch1.wf s1 -> Sketch2.wf s2 ->
  let h := hour12 (hour dt) in
  let ds := [h / 10; h mod 10; minute dt / 10; minute dt mod 10] in
  (Sketch1.trace (Sketch1.updateDisplay dt s1)
   = Sketch1.trace s1
     ++ [Publish 0 (h / 10); Publish 1 (h mod 10);
         Publish 2 (minute dt / 10); Publish 3 (minute dt mod 10);
         Persist (unixtime dt)]) /\
  Sketch1.motorTargets (Sketch1.updateDisplay dt s1) = ds /\
  Sketch1.motorMoveFlags (Sketch1.updateDisplay dt s1) = [true; true; true; true] /\
  (Sketch2.trace (Sketch2.updateDisplay dt s2)
   = Sketch2.trace s2
     ++ [Publish 0 (h / 10); Publish 1 (h mod 10);
         Publish 2 (minute dt / 10); Publish 3 (minute dt mod 10)]) /\
  Sketch2.targetSteps (Sketch2.updateDisplay dt s2) = map Sketch2.steps_of_digit ds /\
  Sketch2.moveFlag (Sketch2.updateDisplay dt s2) = [true; true; true; true] /\
  (hour dt = 0 \/ hour dt = 12 -> h / 10 = 1 /\ h mod 10 = 2) /\
  (hour dt = 13 -> h / 10 = 0 /\ h mod 10 = 1).
Proof.
  intros Hv Hw1 Hw2 h ds.
  destruct (Sketch1_updateDisplay_board dt s1 Hw1) as [Ht1 Hf1].
  destruct (Sketch2_updateDisplay_board dt s2 Hv Hw2) as [Ht2 Hf2].
  rewrite Sketch1_updateDisplay_trace, Sketch2_updateDisplay_trace by exact Hv.
  rewrite Sketch1_digits_clock in * by exact Hv.
  subst h ds. unfold clock_digits in *.
  split; [reflexivity |]. split; [exact Ht1 |]. split; [exact Hf1 |].
  split; [reflexivity |]. split; [exact Ht2 |]. split; [exact Hf2 |].
  split.
  - intros [-> | ->]; split; reflexivity.
  - intros ->; split; reflexivity.
Qed.

Lemma C2_updateDisplay_publishes_clock_digits_witness :
  Sketch1.motorTargets
    (Sketch1.updateDisplay (mkDateTime 13 9 1200) (Sketch1.boot 0)) = [0; 1; 0; 9] /\
  Sketch2.targetSteps (Sketch2.updateDisplay (mkDateTime 0 10 600) Sketch2.boot)
  = map Sketch2.steps_of_digit [1; 2; 1; 0].
Proof.
  assert (V1 : valid_DateTime (mkDateTime 13 9 1200)) by (vm_compute; intuition congruence).
  assert (V2 : valid_DateTime (mkDateTime 0 10 600)) by (vm_compute; intuition congruence).
  assert (W1 : Sketch1.wf (Sketch1.boot 0)) by (repeat split).
  assert (W2 : Sketch2.wf Sketch2.boot) by (repeat split).
  split.
  - exact (proj1 (proj2 (C2_updateDisplay_publishes_clock_digits _ _ _ V1 W1 W2))).
  - exact (proj1 (proj2 (proj2 (proj2 (proj2
             (C2_updateDisplay_publishes_clock_digits _ _ _ V2 W1 W2)))))).
Defined.

(** ** Recovery at boot *)

Lemma add32_sub32 (T C : Z) : is_uint32 C -> add32 T (sub32 C T) = C.
Proof.
  intros HC. unfold add32, sub32, to_uint32.
  rewrite Zplus_mod_idemp_r. replace (T + (C - T)) with C by lia.
  apply Z.mod_small. exact HC.
Qed.

Lemma sub32_add32 (T k : Z) : is_uint32 k -> sub32 (add32 T k) T = k.
Proof.
  intros Hk. unfold add32, sub32, to_uint32.
  rewrite Zminus_mod_idemp_l. replace (T + k - T) with k by lia.
  apply Z.mod_small. exact Hk.
Qed.

Lemma add32_range (a b : Z) : is_uint32 (add32 a b).
Proof. unfold add32, to_uint32, is_uint32. apply Z.mod_pos_bound. lia. Qed.

(** The difference of an earlier time and a later one wraps around. *)
Lemma sub32_wraps (C S : Z) :
  is_uint32 S -> 0 <= C < S -> sub32 C S = 2 ^ 32 - (S - C).
Proof.
  intros HS HC. unfold sub32, to_uint32, is_uint32 in *.
  replace (C - S) with (2 ^ 32 - (S - C) + (-1) * 2 ^ 32) by lia.
  rewrite Z.mod_add by lia. apply Z.mod_small. lia.
Qed.

Lemma planRecovery_recent (T C : Z) :
  is_uint32 C -> 0 < T -> sub32 C T < 86400 -> Sketch1.planRecovery T C = Some C.
Proof.
  intros HC HT Hgap. unfold Sketch1.planRecovery.
  destruct (0 <? T) eqn:E1; [| lia].
  destruct (sub32 C T <? 86400) eqn:E2; [| lia].
  rewrite add32_sub32 by exact HC. reflexivity.
Qed.

Lemma planRecovery_stale (T C : Z) :
  86400 <= sub32 C T -> Sketch1.planRecovery T C = None.
Proof.
  intros Hgap. unfold Sketch1.planRecovery.
  destruct (0 <? T); [| reflexivity].
  destruct (sub32 C T <? 86400) eqn:E2; [lia | reflexivity].
Qed.

Lemma planRecovery_absent (C : Z) : Sketch1.planRecovery 0 C = None.
Proof. reflexivity. Qed.

(** C3: with a stored timestamp T (a stored 0 is how the sketch sees "no
    stored value") and the current time C, the recovery test of [setup]
    yields C and renders it once when T is present and C - T < 86400,
    yields nothing and renders nothing when C - T >= 86400, and yields
    nothing when no value is stored.  C - T is the [uint32_t] difference
    the sketch computes.  In particular T + 86399 recovers and T + 86400
    does not. *)
Theorem C3_planRecovery_boundary
    (DateTime_of_epoch : Z -> DateTime) (now : DateTime) (st : Sketch1.State) :
  let T := Sketch1.loadState st in
  let C := unixtime now in
  is_uint32 T -> is_uint32 C ->
  (0 < T -> sub32 C T < 86400 ->
     Sketch1.planRecovery T C = Some C /\
     Sketch1.setup_recovery DateTime_of_epoch now st
     = Sketch1.updateDisplay (DateTime_of_epoch C) st) /\
  (0 < T -> 86400 <= sub32 C T ->
     Sketch1.planRecovery T C = None /\
     Sketch1.setup_recovery DateTime_of_epoch now st = st) /\
  (T = 0 ->
     Sketch1.planRecovery T C = None /\
     Sketch1.setup_recovery DateTime_of_epoch now st = st) /\
  (0 < T -> Sketch1.planRecovery T (add32 T 86399) = Some (add32 T 86399)) /\
  Sketch1.planRecovery T (add32 T 86400) = None.
Proof.
  intros T C HT HC. unfold Sketch1.setup_recovery. fold T C.
  split; [| split; [| split; [| split]]].
  - intros Hpos Hgap. rewrite (planRecovery_recent T C HC Hpos Hgap).
    split; reflexivity.
  - intros _ Hgap. rewrite (planRecovery_stale T C Hgap). split; reflexivity.
  - intros ->. rewrite planRecovery_absent. split; reflexivity.
  - intros Hpos. apply planRecovery_recent.
    + apply add32_range.
    + exact Hpos.
    + rewrite sub32_add32 by (unfold is_uint32; lia). lia.
  - apply planRecovery_stale.
    rewrite sub32_add32 by (unfold is_uint32; lia). lia.
Qed.

Lemma C3_planRecovery_boundary_witness :
  Sketch1.planRecovery 1000 1200 = Some 1200 /\
  Sketch1.planRecovery 1000 87400 = None.
Proof.
  pose (mk := fun t : Z => mkDateTime ((t / 3600) mod 24) ((t / 60) mod 60) t).
  assert (H1 : is_uint32 1000) by (unfold is_uint32; lia).
  assert (H2 : is_uint32 1200) by (unfold is_uint32; lia).
  assert (H3 : is_uint32 87400) by (unfold is_uint32; lia).
  split.
  - exact (proj1 (proj1 (C3_planRecovery_boundary mk (mk 1200) (Sketch1.boot 1000) H1 H2)
                    ltac:(simpl; lia) ltac:(vm_compute; reflexivity))).
  - exact (proj1 (proj1 (proj2 (C3_planRecovery_boundary mk (mk 87400) (Sketch1.boot 1000) H1 H3))
                    ltac:(simpl; lia) ltac:(vm_compute; discriminate))).
Defined.

(** C10, as stated, does not hold: with the stored value 4294967295 and
    the clock at 0 the wrapped difference is 1, and [setup] renders. *)
Lemma C10_counterexample :
  sub32 0 4294967295 = 1 /\
  Sketch1.planRecovery 4294967295 0 = Some 0 /\
  ~ (forall S C : Z, is_uint32 S -> is_uint32 C -> 0 < S -> C < S ->
       86400 <= sub32 C S /\ Sketch1.planRecovery S C = None).
Proof.
  split; [reflexivity |]. split; [reflexivity |].
  intros H.
  destruct (H 4294967295 0) as [_ Hp]; unfold is_uint32; try lia.
  vm_compute in Hp. discriminate.
Qed.

(** C10, amended: the gap test uses unsigned 32-bit subtraction, so for a
    stored timestamp S > 0 and a current time C < S the difference wraps
    to 2^32 - (S - C); when S - C <= 2^32 - 86400 this is at least 86400
    and no recovery render is performed, and when S - C > 2^32 - 86400 it
    is below 86400 and C is rendered. *)
Theorem C10_future_timestamp_wraps
    (DateTime_of_epoch : Z -> DateTime) (now : DateTime) (st : Sketch1.State) :
  let S := Sketch1.loadState st in
  let C := unixtime now in
  is_uint32 S -> 0 <= C < S ->
  sub32 C S = 2 ^ 32 - (S - C) /\
  (S - C <= 2 ^ 32 - 86400 ->
     86400 <= sub32 C S /\
     Sketch1.planRecovery S C = None /\
     Sketch1.setup_recovery DateTime_of_epoch now st = st) /\
  (2 ^ 32 - 86400 < S - C ->
     sub32 C S < 86400 /\
     Sketch1.planRecovery S C = Some C /\
     Sketch1.setup_recovery DateTime_of_epoch now st
     = Sketch1.updateDisplay (DateTime_of_epoch C) st).
Proof.
  intros S C HS HC. unfold Sketch1.setup_recovery. fold S C.
  pose proof (sub32_wraps C S HS HC) as Hw.
  split; [exact Hw |]. split.
  - intros Hfar. assert (Hgap : 86400 <= sub32 C S) by lia.
    rewrite (planRecovery_stale S C Hgap). repeat split. exact Hgap.
  - intros Hnear. assert (Hgap : sub32 C S < 86400) by lia.
    assert (HC' : is_uint32 C) by (unfold is_uint32 in *; lia).
    rewrite (planRecovery_recent S C HC' ltac:(lia) Hgap). repeat split. exact Hgap.
Qed.

Lemma C10_future_timestamp_wraps_witness :
  sub32 1000 2000 = 4294966296 /\ Sketch1.planRecovery 2000 1000 = None.
Proof.
  pose (mk := fun t : Z => mkDateTime ((t / 3600) mod 24) ((t / 60) mod 60) t).
  assert (HS : is_uint32 2000) by (unfold is_uint32; lia).
  destruct (C10_future_timestamp_wraps mk (mk 1000) (Sketch1.boot 2000) HS
              ltac:(simpl; lia)) as (Hw & Hfar & _).
  split.
  - exact Hw.
  - exact (proj1 (proj2 (Hfar ltac:(simpl; lia)))).
Defined.

(** ** The motor tasks *)

Ltac same_state :=
  intros;
  repeat match goal with
         | H : ?l !! ?i = _ |- context [?l !! ?i] => rewrite H
         end;
  repeat split; (assumption || reflexivity || congruence).

Lemma Sketch2_motorTask_quiet (idx : nat) (due : bool) (st : Sketch2.State) :
  Sketch2_quiet idx st ->
  Sketch2_quiet idx (Sketch2.motorTask idx due st) /\
  Sketch2.trace (Sketch2.motorTask idx due st) = Sketch2.trace st /\
  targetPosition <$> (Sketch2.steppers (Sketch2.motorTask idx due st) !! idx)
  = targetPosition <$> (Sketch2.steppers st !! idx).
Proof.
  unfold Sketch2.motorTask, Sketch2_quiet.
  destruct (Sketch2.taskPc st !! idx) as [pc|] eqn:Epc; [| same_state].
  destruct (Sketch2.moveFlag st !! idx) as [flag|] eqn:Ef; [| same_state].
  destruct (Sketch2.targetSteps st !! idx) as [steps|] eqn:Et; [| same_state].
  destruct (Sketch2.steppers st !! idx) as [m|] eqn:Em; [| same_state].
  pose proof (lookup_lt_Some _ _ _ Epc) as Lpc.
  pose proof (lookup_lt_Some _ _ _ Ef) as Lf.
  pose proof (lookup_lt_Some _ _ _ Em) as Lm.
  intros Hq. destruct pc.
  - specialize (Hq eq_refl). injection Hq as ->.
    rewrite Epc, Ef, Em. same_state.
  - destruct (distanceToGo m =? 0); simpl.
    + rewrite list_lookup_insert_eq by exact Lpc. rewrite Em. same_state.
    + rewrite Epc, list_lookup_insert_eq by exact Lm.
      split; [discriminate | split; [reflexivity | destruct due; reflexivity]].
  - simpl. rewrite Em, !list_lookup_insert_eq by assumption. same_state.
Qed.

Lemma Sketch2_run_task_quiet (idx : nat) (sched : list bool) (st : Sketch2.State) :
  Sketch2_quiet idx st ->
  Sketch2_quiet idx (Sketch2.run_task idx sched st) /\
  Sketch2.trace (Sketch2.run_task idx sched st) = Sketch2.trace st /\
  targetPosition <$> (Sketch2.steppers (Sketch2.run_task idx sched st) !! idx)
  = targetPosition <$> (Sketch2.steppers st !! idx).
Proof.
  revert st. induction sched as [|due sched IH]; intros st Hq; simpl.
  - same_state.
  - destruct (Sketch2_motorTask_quiet idx due st Hq) as (Hq' & Htr & Htg).
    destruct (IH _ Hq') as (Hq'' & Htr' & Htg').
    fold (Sketch2.run_task idx sched (Sketch2.motorTask idx due st)).
    rewrite Htr', Htg'. same_state.
Qed.

(** A task at the poll with the flag up takes the slot: it calls
    [moveTo] with the truncated step count and enters the inner loop. *)
Lemma Sketch2_motorTask_take
    (idx : nat) (due : bool) (steps : float) (st : Sketch2.State) :
  Sketch2.wf st -> (idx < MOTOR_COUNT)%nat ->
  Sketch2.taskPc st !! idx = Some AtPoll ->
  Sketch2.moveFlag st !! idx = Some true ->
  Sketch2.targetSteps st !! idx = Some steps ->
  Sketch2.trace (Sketch2.motorTask idx due st)
  = Sketch2.trace st ++ [MoveTo idx (Sketch2.motorTask_target steps)] /\
  targetPosition <$> (Sketch2.steppers (Sketch2.motorTask idx due st) !! idx)
  = Some (Sketch2.motorTask_target steps) /\
  Sketch2.taskPc (Sketch2.motorTask idx due st) !! idx = Some InMove /\
  Sketch2_quiet idx (Sketch2.motorTask idx due st).
Proof.
  intros (Ht & Hf & Hm & Hp) Hi Epc Ef Et.
  destruct (lookup_lt_is_Some_2 (Sketch2.steppers st) idx) as [m Em];
    [rewrite Hm; exact Hi |].
  unfold Sketch2.motorTask, Sketch2_quiet. rewrite Epc, Ef, Et, Em. simpl.
  rewrite !list_lookup_insert_eq by (rewrite ?Hm, ?Hp; exact Hi).
  same_state.
Qed.

Lemma Sketch1_motorTask_quiet (idx : nat) (due : bool) (st : Sketch1.State) :
  Sketch1_quiet idx st ->
  Sketch1_quiet idx (Sketch1.motorTask idx due st) /\
  Sketch1.trace (Sketch1.motorTask idx due st) = Sketch1.trace st /\
  targetPosition <$> (Sketch1.motors (Sketch1.motorTask idx due st) !! idx)
  = targetPosition <$> (Sketch1.motors st !! idx).
Proof.
  unfold Sketch1.motorTask, Sketch1_quiet.
  destruct (Sketch1.taskPc st !! idx) as [pc|] eqn:Epc; [| same_state].
  destruct (Sketch1.motorMoveFlags st !! idx) as [flag|] eqn:Ef; [| same_state].
  destruct (Sketch1.motorTargets st !! idx) as [digit|] eqn:Et; [| same_state].
  destruct (Sketch1.motors st !! idx) as [m|] eqn:Em; [| same_state].
  pose proof (lookup_lt_Some _ _ _ Epc) as Lpc.
  pose proof (lookup_lt_Some _ _ _ Ef) as Lf.
  pose proof (lookup_lt_Some _ _ _ Em) as Lm.
  intros Hq. destruct pc.
  - specialize (Hq eq_refl). injection Hq as ->.
    rewrite Epc, Ef, Em. same_state.
  - destruct (distanceToGo m =? 0); simpl.
    + rewrite list_lookup_insert_eq by exact Lpc. rewrite Em. same_state.
    + rewrite Epc, list_lookup_insert_eq by exact Lm.
      split; [discriminate | split; [reflexivity | destruct due; reflexivity]].
  - simpl. rewrite Em, !list_lookup_insert_eq by assumption. same_state.
Qed.

Lemma Sketch1_run_task_quiet (idx : nat) (sched : list bool) (st : Sketch1.State) :
  Sketch1_quiet idx st ->
  Sketch1_quiet idx (Sketch1.run_task idx sched st) /\
  Sketch1.trace (Sketch1.run_task idx sched st) = Sketch1.trace st /\
  targetPosition <$> (Sketch1.motors (Sketch1.run_task idx sched st) !! idx)
  = targetPosition <$> (Sketch1.motors st !! idx).
Proof.
  revert st. induction sched as [|due sched IH]; intros st Hq; simpl.
  - same_state.
  - destruct (Sketch1_motorTask_quiet idx due st Hq) as (Hq' & Htr & Htg).
    destruct (IH _ Hq') as (Hq'' & Htr' & Htg').
    fold (Sketch1.run_task idx sched (Sketch1.motorTask idx due st)).
    rewrite Htr', Htg'. same_state.
Qed.

(** A task at the poll with the flag up takes the slot: it calls
    [moveTo] with the truncated step count and enters the inner loop. *)
Lemma Sketch1_motorTask_take
    (idx : nat) (due : bool) (digit : Z) (st : Sketch1.State) :
  Sketch1.wf st -> (idx < MOTOR_COUNT)%nat ->
  Sketch1.taskPc st !! idx = Some AtPoll ->
  Sketch1.motorMoveFlags st !! idx = Some true ->
  Sketch1.motorTargets st !! idx = Some digit ->
  Sketch1.trace (Sketch1.motorTask idx due st)
  = Sketch1.trace st ++ [MoveTo idx (Sketch1.motorTask_target digit)] /\
  targetPosition <$> (Sketch1.motors (Sketch1.motorTask idx due st) !! idx)
  = Some (Sketch1.motorTask_target digit) /\
  Sketch1.taskPc (Sketch1.motorTask idx due st) !! idx = Some InMove /\
  Sketch1_quiet idx (Sketch1.motorTask idx due st).
Proof.
  intros (Ht & Hf & Hm & Hp) Hi Epc Ef Et.
  destruct (lookup_lt_is_Some_2 (Sketch1.motors st) idx) as [m Em];
    [rewrite Hm; exact Hi |].
  unfold Sketch1.motorTask, Sketch1_quiet. rewrite Epc, Ef, Et, Em. simpl.
  rewrite !list_lookup_insert_eq by (rewrite ?Hm, ?Hp; exact Hi).
  same_state.
Qed.

(** ** Publishing and taking *)

Lemma Sketch1_moveToDigit_slot (motor : nat) (digit : Z) (st : Sketch1.State) :
  Sketch1.wf st -> (motor < MOTOR_COUNT)%nat ->
  Sketch1.wf (Sketch1.moveToDigit motor digit st) /\
  Sketch1.motorTargets (Sketch1.moveToDigit motor digit st) !! motor = Some digit /\
  Sketch1.motorMoveFlags (Sketch1.moveToDigit motor digit st) !! motor = Some true.
Proof.
  intros (Ht & Hf & Hm & Hp) Hi. unfold Sketch1.wf. simpl.
  rewrite !length_insert, !list_lookup_insert_eq by (rewrite ?Ht, ?Hf; exact Hi).
  same_state.
Qed.

Lemma Sketch2_setMotorDigit_slot (index : nat) (digit : Z) (st : Sketch2.State) :
  Sketch2.wf st -> (index < MOTOR_COUNT)%nat ->
  Sketch2.wf (Sketch2.setMotorDigit index digit st) /\
  Sketch2.targetSteps (Sketch2.setMotorDigit index digit st) !! index
  = Some (Sketch2.steps_of_digit (Sketch2.clamp digit)) /\
  Sketch2.moveFlag (Sketch2.setMotorDigit index digit st) !! index = Some true.
Proof.
  intros (Ht & Hf & Hm & Hp) Hi. unfold Sketch2.wf. simpl.
  rewrite !length_insert, !list_lookup_insert_eq by (rewrite ?Ht, ?Hf; exact Hi).
  same_state.
Qed.

(** The eleven step counts are pairwise different: the slot of the
    second sketch tells which digit was published. *)
Lemma steps_of_digit_inj (a b : Z) :
  0 <= a <= 10 -> 0 <= b <= 10 ->
  Sketch2.steps_of_digit a = Sketch2.steps_of_digit b -> a = b.
Proof.
  intros Ha Hb. each_digit a Ha; each_digit b Hb;
    vm_compute; intros E; first [reflexivity | discriminate E].
Qed.

Lemma Sketch1_publish_twice_then_run
    (motor : nat) (A B : Z) (due : bool) (sched : list bool) (st : Sketch1.State) :
  Sketch1.wf st -> (motor < MOTOR_COUNT)%nat ->
  Sketch1.taskPc st !! motor = Some AtPoll ->
  let st' := Sketch1.moveToDigit motor B (Sketch1.moveToDigit motor A st) in
  Sketch1.motorTargets st' !! motor = Some B /\
  Sketch1.motorMoveFlags st' !! motor = Some true /\
  Sketch1.trace (Sketch1.run_task motor (due :: sched) st')
  = Sketch1.trace st
    ++ [Publish motor A; Publish motor B; MoveTo motor (Sketch1.motorTask_target B)].
Proof.
  intros Hw Hi Hpc st'.
  destruct (Sketch1_moveToDigit_slot motor A st Hw Hi) as (Hw1 & _ & _).
  destruct (Sketch1_moveToDigit_slot motor B _ Hw1 Hi) as (Hw2 & Hs & Hf).
  fold st' in Hw2, Hs, Hf. split; [exact Hs |]. split; [exact Hf |].
  destruct (Sketch1_motorTask_take motor due B st' Hw2 Hi Hpc Hf Hs)
    as (Htr & _ & _ & Hq).
  destruct (Sketch1_run_task_quiet motor sched _ Hq) as (_ & Htr' & _).
  change (Sketch1.run_task motor (due :: sched) st')
    with (Sketch1.run_task motor sched (Sketch1.motorTask motor due st')).
  rewrite Htr', Htr. subst st'. simpl. rewrite <- !app_assoc. reflexivity.
Qed.

Lemma Sketch2_publish_twice_then_run
    (index : nat) (A B : Z) (due : bool) (sched : list bool) (st : Sketch2.State) :
  Sketch2.wf st -> (index < MOTOR_COUNT)%nat ->
  Sketch2.taskPc st !! index = Some AtPoll ->
  let st' := Sketch2.setMotorDigit index B (Sketch2.setMotorDigit index A st) in
  Sketch2.targetSteps st' !! index = Some (Sketch2.steps_of_digit (Sketch2.clamp B)) /\
  Sketch2.moveFlag st' !! index = Some true /\
  Sketch2.trace (Sketch2.run_task index (due :: sched) st')
  = Sketch2.trace st
    ++ [Publish index (Sketch2.clamp A); Publish index (Sketch2.clamp B);
        MoveTo index (Sketch2.motorTask_target (Sketch2.steps_of_digit (Sketch2.clamp B)))].
Proof.
  intros Hw Hi Hpc st'.
  destruct (Sketch2_setMotorDigit_slot index A st Hw Hi) as (Hw1 & _ & _).
  destruct (Sketch2_setMotorDigit_slot index B _ Hw1 Hi) as (Hw2 & Hs & Hf).
  fold st' in Hw2, Hs, Hf. split; [exact Hs |]. split; [exact Hf |].
  destruct (Sketch2_motorTask_take index due _ st' Hw2 Hi Hpc Hf Hs)
    as (Htr & _ & _ & Hq).
  destruct (Sketch2_run_task_quiet index sched _ Hq) as (_ & Htr' & _).
  change (Sketch2.run_task index (due :: sched) st')
    with (Sketch2.run_task index sched (Sketch2.motorTask index due st')).
  rewrite Htr', Htr. subst st'. simpl. rewrite <- !app_assoc. reflexivity.
Qed.

(** Last write wins on an idle axis: when the digits A and then B are
    published to an axis whose task is at its poll, and the task then
    runs (for any number of quanta, at least one), the slot holds B with
    the flag up, and the task takes a target exactly once, the one of B:
    A is never observed.  The first sketch keeps the digit B in the slot;
    the second keeps the step count of B, which determines B.  (On an
    axis that is mid-move this fails, see below.) *)
Theorem last_write_wins_on_idle_axis
    (axis : nat) (A B : Z) (due : bool) (sched : list bool)
    (s1 : Sketch1.State) (s2 : Sketch2.State) :
  (axis < MOTOR_COUNT)%nat -> 0 <= A <= 10 -> 0 <= B <= 10 ->
  Sketch1.wf s1 -> Sketch1.taskPc s1 !! axis = Some AtPoll ->
  Sketch2.wf s2 -> Sketch2.taskPc s2 !! axis = Some AtPoll ->
  let p1 := Sketch1.moveToDigit axis B (Sketch1.moveToDigit axis A s1) in
  let p2 := Sketch2.setMotorDigit axis B (Sketch2.setMotorDigit axis A s2) in
  (Sketch1.motorTargets p1 !! axis = Some B /\
   Sketch1.motorMoveFlags p1 !! axis = Some true /\
   Sketch1.trace (Sketch1.run_task axis (due :: sched) p1)
   = Sketch1.trace s1
     ++ [Publish axis A; Publish axis B; MoveTo axis (Sketch1.motorTask_target B)]) /\
  (Sketch2.targetSteps p2 !! axis = Some (Sketch2.steps_of_digit B) /\
   (forall d, 0 <= d <= 10 ->
      Sketch2.targetSteps p2 !! axis = Some (Sketch2.steps_of_digit d) -> d = B) /\
   Sketch2.moveFlag p2 !! axis = Some true /\
   Sketch2.trace (Sketch2.run_task axis (due :: sched) p2)
   = Sketch2.trace s2
     ++ [Publish axis A; Publish axis B;
         MoveTo axis (Sketch2.motorTask_target (Sketch2.steps_of_digit B))]).
Proof.
  intros Hi HA HB Hw1 Hpc1 Hw2 Hpc2 p1 p2. split.
  - exact (Sketch1_publish_twice_then_run axis A B due sched s1 Hw1 Hi Hpc1).
  - destruct (Sketch2_publish_twice_then_run axis A B due sched s2 Hw2 Hi Hpc2)
      as (Hs & Hf & Htr).
    fold p2 in Hs, Hf, Htr.
    rewrite (clamp_small A), (clamp_small B) in * by lia.
    split; [exact Hs |]. split; [| split; [exact Hf | exact Htr]].
    intros d Hd Hd'. rewrite Hs in Hd'. injection Hd' as Hd'.
    symmetry. apply steps_of_digit_inj; [exact HB | exact Hd | exact Hd'].
Qed.

Lemma last_write_wins_on_idle_axis_witness :
  Sketch1.trace
    (Sketch1.run_task 2 [true; true; true]
       (Sketch1.moveToDigit 2 7 (Sketch1.moveToDigit 2 3 (Sketch1.boot 0))))
  = [Publish 2 3; Publish 2 7; MoveTo 2 2035].
Proof.
  assert (W1 : Sketch1.wf (Sketch1.boot 0)) by (repeat split).
  assert (W2 : Sketch2.wf Sketch2.boot) by (repeat split).
  exact (proj2 (proj2 (proj1
    (last_write_wins_on_idle_axis 2 3 7 true [true; true] (Sketch1.boot 0) Sketch2.boot
       ltac:(unfold MOTOR_COUNT; lia) ltac:(lia) ltac:(lia)
       W1 eq_refl W2 eq_refl)))).
Defined.

(** ** A publish that arrives during a move *)

(** Publishing never touches a stepper or a task: a move under way keeps
    its target whatever is published meanwhile. *)
Lemma Sketch1_moveToDigit_keeps_motion (motor : nat) (digit : Z) (st : Sketch1.State) :
  Sketch1.motors (Sketch1.moveToDigit motor digit st) = Sketch1.motors st /\
  Sketch1.taskPc (Sketch1.moveToDigit motor digit st) = Sketch1.taskPc st.
Proof. split; reflexivity. Qed.

Lemma Sketch2_setMotorDigit_keeps_motion (index : nat) (digit : Z) (st : Sketch2.State) :
  Sketch2.steppers (Sketch2.setMotorDigit index digit st) = Sketch2.steppers st /\
  Sketch2.taskPc (Sketch2.setMotorDigit index digit st) = Sketch2.taskPc st.
Proof. split; reflexivity. Qed.

(** A publish to an axis that is not at its poll is never taken by the
    task running on: the flag it raised is cleared when the move under
    way ends. *)
Lemma Sketch2_publish_while_moving
    (idx : nat) (digit : Z) (pc : Pc) (sched : list bool) (st : Sketch2.State) :
  Sketch2.taskPc st !! idx = Some pc -> pc <> AtPoll ->
  Sketch2.trace (Sketch2.run_task idx sched (Sketch2.setMotorDigit idx digit st))
  = Sketch2.trace st ++ [Publish idx (Sketch2.clamp digit)] /\
  targetPosition <$>
    (Sketch2.steppers (Sketch2.run_task idx sched (Sketch2.setMotorDigit idx digit st)) !! idx)
  = targetPosition <$> (Sketch2.steppers st !! idx).
Proof.
  intros Hpc Hne.
  assert (Hq : Sketch2_quiet idx (Sketch2.setMotorDigit idx digit st)).
  { unfold Sketch2_quiet. simpl. rewrite Hpc. intros E. congruence. }
  destruct (Sketch2_run_task_quiet idx sched _ Hq) as (_ & Htr & Htg).
  rewrite Htr, Htg. split; reflexivity.
Qed.

Lemma Sketch1_publish_while_moving
    (idx : nat) (digit : Z) (pc : Pc) (sched : list bool) (st : Sketch1.State) :
  Sketch1.taskPc st !! idx = Some pc -> pc <> AtPoll ->
  Sketch1.trace (Sketch1.run_task idx sched (Sketch1.moveToDigit idx digit st))
  = Sketch1.trace st ++ [Publish idx digit] /\
  targetPosition <$>
    (Sketch1.motors (Sketch1.run_task idx sched (Sketch1.moveToDigit idx digit st)) !! idx)
  = targetPosition <$> (Sketch1.motors st !! idx).
Proof.
  intros Hpc Hne.
  assert (Hq : Sketch1_quiet idx (Sketch1.moveToDigit idx digit st)).
  { unfold Sketch1_quiet. simpl. rewrite Hpc. intros E. congruence. }
  destruct (Sketch1_run_task_quiet idx sched _ Hq) as (_ & Htr & Htg).
  rewrite Htr, Htg. split; reflexivity.
Qed.

Lemma run_closes_in (m : AccelStepper) (n : nat) :
  Z.abs (distanceToGo m) = Z.of_nat (S n) ->
  Z.abs (distanceToGo (run true m)) = Z.of_nat n /\
  targetPosition (run true m) = targetPosition m /\
  (distanceToGo m =? 0) = false.
Proof.
  unfold run, distanceToGo. cbn [currentPosition targetPosition]. intros H.
  split; [| split; [reflexivity | apply Z.eqb_neq; lia]].
  destruct (Z.sgn_spec (targetPosition m - currentPosition m))
    as [[? ->] | [[? ->] | [? ->]]]; lia.
Qed.

(** A move under way runs to its end: with a step made in every quantum,
    a task in its inner loop at distance n from the target stands on the
    target n quanta later, and slot, flag and trace are as they were. *)
Lemma Sketch2_move_completes (idx n : nat) :
  forall (st : Sketch2.State) (m : AccelStepper),
  Sketch2.wf st -> (idx < MOTOR_COUNT)%nat ->
  Sketch2.taskPc st !! idx = Some InMove ->
  Sketch2.steppers st !! idx = Some m ->
  Z.abs (distanceToGo m) = Z.of_nat n ->
  let st' := Sketch2.run_task idx (replicate n true) st in
  Sketch2.steppers st' !! idx
  = Some (mkStepper (targetPosition m) (targetPosition m)) /\
  Sketch2.taskPc st' !! idx = Some InMove /\
  Sketch2.targetSteps st' = Sketch2.targetSteps st /\
  Sketch2.moveFlag st' = Sketch2.moveFlag st /\
  Sketch2.trace st' = Sketch2.trace st.
Proof.
  induction n as [|n IH]; intros st m Hw Hi Hpc Hm Hd st'; subst st'.
  - simpl. rewrite Hm, Hpc. destruct m as [c t]. unfold distanceToGo in Hd. simpl in *.
    replace c with t by lia. same_state.
  - destruct (run_closes_in m n Hd) as (Hd' & Ht' & Hnz).
    pose proof Hw as (Ht & Hf & Hs & Hp).
    destruct (lookup_lt_is_Some_2 (Sketch2.moveFlag st) idx) as [f Ef];
      [rewrite Hf; exact Hi |].
    destruct (lookup_lt_is_Some_2 (Sketch2.targetSteps st) idx) as [s Es];
      [rewrite Ht; exact Hi |].
    assert (E : Sketch2.motorTask idx true st
                = Sketch2.mkState (Sketch2.targetSteps st) (Sketch2.moveFlag st)
                    (<[idx := run true m]> (Sketch2.steppers st))
                    (Sketch2.taskPc st) (Sketch2.trace st)).
    { unfold Sketch2.motorTask. rewrite Hpc, Ef, Es, Hm, Hnz. reflexivity. }
    change (Sketch2.run_task idx (replicate (S n) true) st)
      with (Sketch2.run_task idx (replicate n true) (Sketch2.motorTask idx true st)).
    rewrite E.
    set (st1 := Sketch2.mkState (Sketch2.targetSteps st) (Sketch2.moveFlag st)
                  (<[idx := run true m]> (Sketch2.steppers st))
                  (Sketch2.taskPc st) (Sketch2.trace st)).
    assert (Hw1 : Sketch2.wf st1)
      by (unfold Sketch2.wf; simpl; rewrite length_insert; exact Hw).
    assert (Hm1 : Sketch2.steppers st1 !! idx = Some (run true m))
      by (simpl; apply list_lookup_insert_eq; rewrite Hs; exact Hi).
    destruct (IH st1 (run true m) Hw1 Hi Hpc Hm1 Hd') as (H1 & H2 & H3 & H4 & H5).
    rewrite H1, H2, H3, H4, H5, Ht'. same_state.
Qed.

Lemma Sketch1_move_completes (idx n : nat) :
  forall (st : Sketch1.State) (m : AccelStepper),
  Sketch1.wf st -> (idx < MOTOR_COUNT)%nat ->
  Sketch1.taskPc st !! idx = Some InMove ->
  Sketch1.motors st !! idx = Some m ->
  Z.abs (distanceToGo m) = Z.of_nat n ->
  let st' := Sketch1.run_task idx (replicate n true) st in
  Sketch1.motors st' !! idx
  = Some (mkStepper (targetPosition m) (targetPosition m)) /\
  Sketch1.taskPc st' !! idx = Some InMove /\
  Sketch1.motorTargets st' = Sketch1.motorTargets st /\
  Sketch1.motorMoveFlags st' = Sketch1.motorMoveFlags st /\
  Sketch1.trace st' = Sketch1.trace st.
Proof.
  induction n as [|n IH]; intros st m Hw Hi Hpc Hm Hd st'; subst st'.
  - simpl. rewrite Hm, Hpc. destruct m as [c t]. unfold distanceToGo in Hd. simpl in *.
    replace c with t by lia. same_state.
  - destruct (run_closes_in m n Hd) as (Hd' & Ht' & Hnz).
    pose proof Hw as (Ht & Hf & Hs & Hp).
    destruct (lookup_lt_is_Some_2 (Sketch1.motorMoveFlags st) idx) as [f Ef];
      [rewrite Hf; exact Hi |].
    destruct (lookup_lt_is_Some_2 (Sketch1.motorTargets st) idx) as [d Es];
      [rewrite Ht; exact Hi |].
    assert (E : Sketch1.motorTask idx true st
                = Sketch1.mkState (Sketch1.motorTargets st) (Sketch1.motorMoveFlags st)
                    (<[idx := run true m]> (Sketch1.motors st)) (Sketch1.EEPROM st)
                    (Sketch1.taskPc st) (Sketch1.trace st)).
    { unfold Sketch1.motorTask. rewrite Hpc, Ef, Es, Hm, Hnz. reflexivity. }
    change (Sketch1.run_task idx (replicate (S n) true) st)
      with (Sketch1.run_task idx (replicate n true) (Sketch1.motorTask idx true st)).
    rewrite E.
    set (st1 := Sketch1.mkState (Sketch1.motorTargets st) (Sketch1.motorMoveFlags st)
                  (<[idx := run true m]> (Sketch1.motors st)) (Sketch1.EEPROM st)
                  (Sketch1.taskPc st) (Sketch1.trace st)).
    assert (Hw1 : Sketch1.wf st1)
      by (unfold Sketch1.wf; simpl; rewrite length_insert; exact Hw).
    assert (Hm1 : Sketch1.motors st1 !! idx = Some (run true m))
      by (simpl; apply list_lookup_insert_eq; rewrite Hs; exact Hi).
    destruct (IH st1 (run true m) Hw1 Hi Hpc Hm1 Hd') as (H1 & H2 & H3 & H4 & H5).
    rewrite H1, H2, H3, H4, H5, Ht'. same_state.
Qed.

(** C4 fails on the code, in both sketches.  Axis 0 is mid-move toward
    digit 1 (100 quanta after the publish: target 290, position 99) when
    digit 7 is published.  The move runs to its end at 290, but then the
    task lowers the flag that the second publish had raised: however long
    the task runs on, it never calls [moveTo] for digit 7 (2035 steps),
    the stepper stays targeted at 290, and after 300 quanta the axis
    idles at 290 with the flag down while the slot holds digit 7. *)
Theorem C4_mid_move_publish_is_lost :
  (let moving := Sketch1.run_task 0 (replicate 100 true)
                   (Sketch1.moveToDigit 0 1 (Sketch1.boot 0)) in
   let published := Sketch1.moveToDigit 0 7 moving in
   let settled := Sketch1.run_task 0 (replicate 300 true) published in
   Sketch1.taskPc moving !! 0%nat = Some InMove /\
   Sketch1.motors moving !! 0%nat = Some (mkStepper 99 290) /\
   (forall sched,
      Sketch1.trace (Sketch1.run_task 0 sched published)
      = [Publish 0 1; MoveTo 0 290; Publish 0 7] /\
      targetPosition <$> (Sketch1.motors (Sketch1.run_task 0 sched published) !! 0%nat)
      = Some 290) /\
   Sketch1.motorTask_target 7 = 2035 /\
   Sketch1.taskPc settled !! 0%nat = Some AtPoll /\
   Sketch1.motors settled !! 0%nat = Some (mkStepper 290 290) /\
   Sketch1.motorMoveFlags settled !! 0%nat = Some false /\
   Sketch1.motorTargets settled !! 0%nat = Some 7) /\
  (let moving := Sketch2.run_task 0 (replicate 100 true)
                   (Sketch2.setMotorDigit 0 1 Sketch2.boot) in
   let published := Sketch2.setMotorDigit 0 7 moving in
   let settled := Sketch2.run_task 0 (replicate 300 true) published in
   Sketch2.taskPc moving !! 0%nat = Some InMove /\
   Sketch2.steppers moving !! 0%nat = Some (mkStepper 99 290) /\
   (forall sched,
      Sketch2.trace (Sketch2.run_task 0 sched published)
      = [Publish 0 1; MoveTo 0 290; Publish 0 7] /\
      targetPosition <$> (Sketch2.steppers (Sketch2.run_task 0 sched published) !! 0%nat)
      = Some 290) /\
   Sketch2.motorTask_target (Sketch2.steps_of_digit 7) = 2035 /\
   Sketch2.taskPc settled !! 0%nat = Some AtPoll /\
   Sketch2.steppers settled !! 0%nat = Some (mkStepper 290 290) /\
   Sketch2.moveFlag settled !! 0%nat = Some false /\
   Sketch2.targetSteps settled !! 0%nat = Some (Sketch2.steps_of_digit 7)).
Proof.
  split.
  - intros moving published settled.
    assert (Hpc : Sketch1.taskPc moving !! 0%nat = Some InMove)
      by (vm_compute; reflexivity).
    split; [exact Hpc |]. split; [vm_compute; reflexivity |].
    split.
    { intros sched.
      destruct (Sketch1_publish_while_moving 0 7 InMove sched moving Hpc
                  ltac:(discriminate)) as [Htr Htg].
      fold published in Htr, Htg. rewrite Htr, Htg.
      split; vm_compute; reflexivity. }
    repeat split; vm_compute; reflexivity.
  - intros moving published settled.
    assert (Hpc : Sketch2.taskPc moving !! 0%nat = Some InMove)
      by (vm_compute; reflexivity).
    split; [exact Hpc |]. split; [vm_compute; reflexivity |].
    split.
    { intros sched.
      destruct (Sketch2_publish_while_moving 0 7 InMove sched moving Hpc
                  ltac:(discriminate)) as [Htr Htg].
      fold published in Htr, Htg. rewrite Htr, Htg.
      split; vm_compute; reflexivity. }
    repeat split; vm_compute; reflexivity.
Qed.

(** Two publishes to an axis that is not at its poll: neither is ever
    taken by the task running on. *)
Lemma Sketch1_two_publishes_while_moving
    (idx : nat) (A B : Z) (pc : Pc) (sched : list bool) (st : Sketch1.State) :
  Sketch1.taskPc st !! idx = Some pc -> pc <> AtPoll ->
  Sketch1.trace (Sketch1.run_task idx sched
                   (Sketch1.moveToDigit idx B (Sketch1.moveToDigit idx A st)))
  = Sketch1.trace st ++ [Publish idx A; Publish idx B].
Proof.
  intros Hpc Hne.
  destruct (Sketch1_publish_while_moving idx B pc sched
              (Sketch1.moveToDigit idx A st) Hpc Hne) as [Htr _].
  rewrite Htr. simpl. rewrite <- app_assoc. reflexivity.
Qed.

Lemma Sketch2_two_publishes_while_moving
    (idx : nat) (A B : Z) (pc : Pc) (sched : list bool) (st : Sketch2.State) :
  Sketch2.taskPc st !! idx = Some pc -> pc <> AtPoll ->
  Sketch2.trace (Sketch2.run_task idx sched
                   (Sketch2.setMotorDigit idx B (Sketch2.setMotorDigit idx A st)))
  = Sketch2.trace st ++ [Publish idx (Sketch2.clamp A); Publish idx (Sketch2.clamp B)].
Proof.
  intros Hpc Hne.
  destruct (Sketch2_publish_while_moving idx B pc sched
              (Sketch2.setMotorDigit idx A st) Hpc Hne) as [Htr _].
  rewrite Htr. simpl. rewrite <- app_assoc. reflexivity.
Qed.

(** C5 fails on the code, by the defect of C4.  First sketch: axis 3 is
    mid-move toward digit 9 of 10:09 (100 quanta after the render: target
    2617, position 99) when 10:13 and then 10:17 are rendered, which
    publishes 3 and then 7 to it.  Second sketch: axis 0 is mid-move
    toward digit 1 when [/setdigit] publishes 3 and then 7 to it.  In
    both the slot then holds 7 with the flag up, but however long the
    task runs on it takes no target at all, neither 3 nor 7: the stepper
    stays targeted at the old digit, and once the move is over the axis
    idles there with the flag down. *)
Theorem C5_publishes_during_move_never_taken :
  (let moving := Sketch1.run_task 3 (replicate 100 true)
                   (Sketch1.updateDisplay (mkDateTime 10 9 1700042940) (Sketch1.boot 0)) in
   let published := Sketch1.updateDisplay (mkDateTime 10 17 1700043420)
                      (Sketch1.updateDisplay (mkDateTime 10 13 1700043180) moving) in
   let settled := Sketch1.run_task 3 (replicate 2600 true) published in
   Sketch1.taskPc moving !! 3%nat = Some InMove /\
   Sketch1.motors moving !! 3%nat = Some (mkStepper 99 2617) /\
   Sketch1.motorTargets published !! 3%nat = Some 7 /\
   Sketch1.motorMoveFlags published !! 3%nat = Some true /\
   (forall sched,
      Sketch1.trace (Sketch1.run_task 3 sched published)
      = [Publish 0 1; Publish 1 0; Publish 2 0; Publish 3 9; Persist 1700042940;
         MoveTo 3 2617;
         Publish 0 1; Publish 1 0; Publish 2 1; Publish 3 3; Persist 1700043180;
         Publish 0 1; Publish 1 0; Publish 2 1; Publish 3 7; Persist 1700043420] /\
      targetPosition <$> (Sketch1.motors (Sketch1.run_task 3 sched published) !! 3%nat)
      = Some 2617) /\
   Sketch1.motorTask_target 7 = 2035 /\
   Sketch1.taskPc settled !! 3%nat = Some AtPoll /\
   Sketch1.motors settled !! 3%nat = Some (mkStepper 2617 2617) /\
   Sketch1.motorMoveFlags settled !! 3%nat = Some false /\
   Sketch1.motorTargets settled !! 3%nat = Some 7) /\
  (let moving := Sketch2.run_task 0 (replicate 100 true)
                   (fst (Sketch2.handleManualSet
                           (Sketch2.mkRequest (Some 0) (Some 1)) Sketch2.boot)) in
   let published :=
     fst (Sketch2.handleManualSet (Sketch2.mkRequest (Some 0) (Some 7))
            (fst (Sketch2.handleManualSet (Sketch2.mkRequest (Some 0) (Some 3)) moving))) in
   let settled := Sketch2.run_task 0 (replicate 300 true) published in
   Sketch2.taskPc moving !! 0%nat = Some InMove /\
   Sketch2.steppers moving !! 0%nat = Some (mkStepper 99 290) /\
   Sketch2.targetSteps published !! 0%nat = Some (Sketch2.steps_of_digit 7) /\
   Sketch2.moveFlag published !! 0%nat = Some true /\
   (forall sched,
      Sketch2.trace (Sketch2.run_task 0 sched published)
      = [Publish 0 1; MoveTo 0 290; Publish 0 3; Publish 0 7] /\
      targetPosition <$> (Sketch2.steppers (Sketch2.run_task 0 sched published) !! 0%nat)
      = Some 290) /\
   Sketch2.motorTask_target (Sketch2.steps_of_digit 7) = 2035 /\
   Sketch2.taskPc settled !! 0%nat = Some AtPoll /\
   Sketch2.steppers settled !! 0%nat = Some (mkStepper 290 290) /\
   Sketch2.moveFlag settled !! 0%nat = Some false /\
   Sketch2.targetSteps settled !! 0%nat = Some (Sketch2.steps_of_digit 7)).
Proof.
  split.
  - intros moving published settled.
    split; [vm_compute; reflexivity |]. split; [vm_compute; reflexivity |].
    split; [vm_compute; reflexivity |]. split; [vm_compute; reflexivity |].
    split.
    { intros sched.
      assert (Hq : Sketch1_quiet 3 published)
        by (intros Hp; vm_compute in Hp; discriminate Hp).
      destruct (Sketch1_run_task_quiet 3 sched published Hq) as (_ & Htr & Htg).
      rewrite Htr, Htg. split; vm_compute; reflexivity. }
    repeat split; vm_compute; reflexivity.
  - intros moving published settled.
    split; [vm_compute; reflexivity |]. split; [vm_compute; reflexivity |].
    split; [vm_compute; reflexivity |]. split; [vm_compute; reflexivity |].
    split.
    { intros sched.
      assert (Hq : Sketch2_quiet 0 published)
        by (intros Hp; vm_compute in Hp; discriminate Hp).
      destruct (Sketch2_run_task_quiet 0 sched published Hq) as (_ & Htr & Htg).
      rewrite Htr, Htg. split; vm_compute; reflexivity. }
    repeat split; vm_compute; reflexivity.
Qed.

(** ** Rendering twice, and the durable write *)

Lemma list_insert4_again {A : Type} (a b c d : A) (l : list A) :
  <[3%nat := d]> (<[2%nat := c]> (<[1%nat := b]> (<[0%nat := a]>
    (<[3%nat := d]> (<[2%nat := c]> (<[1%nat := b]> (<[0%nat := a]> l)))))))
  = <[3%nat := d]> (<[2%nat := c]> (<[1%nat := b]> (<[0%nat := a]> l))).
Proof. destruct l as [|? [|? [|? [|? ?]]]]; reflexivity. Qed.

(** C6: rendering the same timestamp twice in a row publishes the same
    four digits both times and leaves the same persisted value; the
    second call changes nothing in the targets, the flags or the EEPROM
    cell. *)
Theorem C6_updateDisplay_twice (dt : DateTime) (st : Sketch1.State) :
  let once := Sketch1.updateDisplay dt st in
  let twice := Sketch1.updateDisplay dt once in
  let render := publish_all (Sketch1.digits dt) ++ [Persist (unixtime dt)] in
  Sketch1.trace once = Sketch1.trace st ++ render /\
  Sketch1.trace twice = Sketch1.trace once ++ render /\
  Sketch1.motorTargets twice = Sketch1.motorTargets once /\
  Sketch1.motorMoveFlags twice = Sketch1.motorMoveFlags once /\
  Sketch1.loadState once = unixtime dt /\
  Sketch1.loadState twice = Sketch1.loadState once /\
  Sketch1.motors twice = Sketch1.motors once /\
  Sketch1.taskPc twice = Sketch1.taskPc once.
Proof.
  intros once twice render. subst once twice render.
  rewrite !Sketch1_updateDisplay_trace.
  split; [reflexivity |]. split; [reflexivity |].
  unfold Sketch1.updateDisplay, Sketch1.digits. simpl.
  rewrite !list_insert4_again. repeat split; reflexivity.
Qed.

(** C8, as stated, does not hold for the second sketch: its
    [updateDisplay] turns the blank display of a fresh boot into 10:10
    and writes nothing durable. *)
Lemma C8_counterexample :
  let dt := mkDateTime 10 10 1700000000 in
  let st := Sketch2.updateDisplay dt Sketch2.boot in
  Sketch2.targetSteps st <> Sketch2.targetSteps Sketch2.boot /\
  Sketch2.trace st = [Publish 0 1; Publish 1 0; Publish 2 1; Publish 3 0] /\
  durable_writes (Sketch2.trace st) = [] /\
  durable_writes (Sketch2.trace st) <> [unixtime dt].
Proof.
  repeat split; vm_compute; discriminate || reflexivity.
Qed.

Lemma durable_writes_app (a b : list Event) :
  durable_writes (a ++ b) = durable_writes a ++ durable_writes b.
Proof. apply omap_app. Qed.

(** C8, amended: in the first sketch every call of [updateDisplay]
    performs exactly one durable write, of the timestamp it was given,
    after its four publishes; the second sketch has no persistent storage
    and its [updateDisplay] performs no durable write. *)
Theorem C8_one_durable_write_after_publishes
    (dt : DateTime) (s1 : Sketch1.State) (s2 : Sketch2.State) :
  (exists d0 d1 d2 d3,
     Sketch1.trace (Sketch1.updateDisplay dt s1)
     = Sketch1.trace s1
       ++ [Publish 0 d0; Publish 1 d1; Publish 2 d2; Publish 3 d3;
           Persist (unixtime dt)]) /\
  durable_writes (Sketch1.trace (Sketch1.updateDisplay dt s1))
  = durable_writes (Sketch1.trace s1) ++ [unixtime dt] /\
  Sketch1.loadState (Sketch1.updateDisplay dt s1) = unixtime dt /\
  (exists d0 d1 d2 d3,
     Sketch2.trace (Sketch2.updateDisplay dt s2)
     = Sketch2.trace s2
       ++ [Publish 0 d0; Publish 1 d1; Publish 2 d2; Publish 3 d3]) /\
  durable_writes (Sketch2.trace (Sketch2.updateDisplay dt s2))
  = durable_writes (Sketch2.trace s2).
Proof.
  rewrite Sketch1_updateDisplay_trace.
  split; [do 4 eexists; reflexivity |].
  split; [rewrite durable_writes_app; reflexivity |].
  split; [reflexivity |].
  assert (E : exists d0 d1 d2 d3,
             Sketch2.trace (Sketch2.updateDisplay dt s2)
             = Sketch2.trace s2
               ++ [Publish 0 d0; Publish 1 d1; Publish 2 d2; Publish 3 d3]).
  { unfold Sketch2.updateDisplay, Sketch2.setMotorDigit. simpl.
    rewrite <- !app_assoc. do 4 eexists. reflexivity. }
  split; [exact E |].
  destruct E as (d0 & d1 & d2 & d3 & ->).
  rewrite durable_writes_app. simpl. apply app_nil_r.
Qed.

(** ** Manual override and clamping *)

(** C7: a [/setdigit] request whose motor is outside [0,3] or whose digit
    is outside [0,10] is answered with 400 and the whole state is left as
    it was: no target, flag, stepper or task changes and nothing is
    published. *)
Theorem C7_handleManualSet_rejects
    (req : Sketch2.Request) (motor digit : Z) (st : Sketch2.State) :
  Sketch2.arg_motor req = Some motor ->
  Sketch2.arg_digit req = Some digit ->
  ~ (0 <= motor <= 3 /\ 0 <= digit <= 10) ->
  Sketch2.handleManualSet req st = (st, (400, "Invalid range"%string)) /\
  Sketch2.targetSteps (fst (Sketch2.handleManualSet req st)) = Sketch2.targetSteps st /\
  Sketch2.moveFlag (fst (Sketch2.handleManualSet req st)) = Sketch2.moveFlag st /\
  Sketch2.steppers (fst (Sketch2.handleManualSet req st)) = Sketch2.steppers st /\
  Sketch2.taskPc (fst (Sketch2.handleManualSet req st)) = Sketch2.taskPc st /\
  Sketch2.trace (fst (Sketch2.handleManualSet req st)) = Sketch2.trace st.
Proof.
  intros Hm Hd Hbad.
  assert (E : Sketch2.handleManualSet req st = (st, (400, "Invalid range"%string))).
  { unfold Sketch2.handleManualSet. rewrite Hm, Hd.
    destruct ((0 <=? motor) && (motor <? Z.of_nat MOTOR_COUNT)
              && (0 <=? digit) && (digit <=? 10)) eqn:E; [| reflexivity].
    exfalso. apply Hbad.
    rewrite !andb_true_iff, !Z.leb_le, Z.ltb_lt in E.
    unfold MOTOR_COUNT in E. lia. }
  rewrite E. repeat split; reflexivity.
Qed.

Lemma C7_handleManualSet_rejects_witness :
  Sketch2.handleManualSet (Sketch2.mkRequest (Some 4) (Some 3)) Sketch2.boot
  = (Sketch2.boot, (400, "Invalid range"%string)) /\
  Sketch2.handleManualSet (Sketch2.mkRequest (Some 2) (Some 11)) Sketch2.boot
  = (Sketch2.boot, (400, "Invalid range"%string)).
Proof.
  split.
  - exact (proj1 (C7_handleManualSet_rejects
                    (Sketch2.mkRequest (Some 4) (Some 3)) 4 3 Sketch2.boot
                    eq_refl eq_refl ltac:(lia))).
  - exact (proj1 (C7_handleManualSet_rejects
                    (Sketch2.mkRequest (Some 2) (Some 11)) 2 11 Sketch2.boot
                    eq_refl eq_refl ltac:(lia))).
Defined.

(** A request in range does reach the board. *)
Example handleManualSet_accepts :
  Sketch2.handleManualSet (Sketch2.mkRequest (Some 3) (Some 10)) Sketch2.boot
  = (Sketch2.setMotorDigit 3 10 Sketch2.boot, (200, "Digit set"%string)).
Proof. reflexivity. Qed.

(** C9: for every [uint8_t] digit, [setMotorDigit] does not reject: it
    publishes to the slot, with a digit above 10 replaced by 10, so the
    published step count is never above 10 * STEPS_PER_DIGIT, and the
    stepper target made from it is never above 2908. *)
Theorem C9_setMotorDigit_clamps (index : nat) (digit : Z) (st : Sketch2.State) :
  Sketch2.wf st -> (index < MOTOR_COUNT)%nat -> is_uint8 digit ->
  let st' := Sketch2.setMotorDigit index digit st in
  let blank := f32_mul (f32_of_int 10) STEPS_PER_DIGIT_2 in
  Sketch2.moveFlag st' !! index = Some true /\
  Sketch2.trace st' = Sketch2.trace st ++ [Publish index (Z.min digit 10)] /\
  Sketch2.targetSteps st' !! index
  = Some (f32_mul (f32_of_int (Z.min digit 10)) STEPS_PER_DIGIT_2) /\
  (10 < digit -> Sketch2.targetSteps st' !! index = Some blank) /\
  (exists steps,
     Sketch2.targetSteps st' !! index = Some steps /\
     (Q_of_float steps <= Q_of_float blank)%Q /\
     SFleb steps blank = true /\
     Sketch2.motorTask_target steps <= Sketch2.motorTask_target blank /\
     Sketch2.motorTask_target blank = 2908).
Proof.
  intros Hw Hi Hd st' blank.
  destruct (Sketch2_setMotorDigit_slot index digit st Hw Hi) as (_ & Hs & Hf).
  fold st' in Hs, Hf. rewrite clamp_min in Hs.
  split; [exact Hf |].
  split; [subst st'; simpl; rewrite clamp_min; reflexivity |].
  split; [exact Hs |].
  split; [intros Hbig; rewrite Hs; rewrite Z.min_r by lia; reflexivity |].
  eexists. split; [exact Hs |].
  assert (Hr : 0 <= Z.min digit 10 <= 10) by (unfold is_uint8 in Hd; lia).
  fold (Sketch2.steps_of_digit (Z.min digit 10)).
  generalize dependent (Z.min digit 10). intros d _ Hr.
  subst blank.
  each_digit d Hr; vm_compute; repeat split; congruence.
Qed.

Lemma C9_setMotorDigit_clamps_witness :
  Sketch2.targetSteps (Sketch2.setMotorDigit 1 255 Sketch2.boot) !! 1%nat
  = Some (f32_mul (f32_of_int 10) STEPS_PER_DIGIT_2).
Proof.
  assert (W : Sketch2.wf Sketch2.boot) by (repeat split).
  exact (proj1 (proj2 (proj2
    (C9_setMotorDigit_clamps 1 255 Sketch2.boot W
       ltac:(unfold MOTOR_COUNT; lia) ltac:(unfold is_uint8; lia))))).
Defined.

(** ** Any schedule of producer and tasks *)

Lemma last_published_move (i a : nat) (t : Z) (tr : list Event) :
  last_published i (tr ++ [MoveTo a t]) = last_published i tr.
Proof. unfold last_published. rewrite omap_app. simpl. rewrite app_nil_r. reflexivity. Qed.

Lemma last_published_persist (i : nat) (e : Z) (tr : list Event) :
  last_published i (tr ++ [Persist e]) = last_published i tr.
Proof. unfold last_published. rewrite omap_app. simpl. rewrite app_nil_r. reflexivity. Qed.

Lemma last_published_same (i : nat) (d : Z) (tr : list Event) :
  last_published i (tr ++ [Publish i d]) = Some d.
Proof.
  unfold last_published. rewrite omap_app. simpl.
  destruct (decide (i = i)) as [_ | N]; [| contradiction].
  apply last_snoc.
Qed.

Lemma last_published_other (i a : nat) (d : Z) (tr : list Event) :
  a <> i -> last_published i (tr ++ [Publish a d]) = last_published i tr.
Proof.
  intros N. unfold last_published. rewrite omap_app. simpl.
  destruct (decide (a = i)) as [E | _]; [contradiction |].
  rewrite app_nil_r. reflexivity.
Qed.

(** A trace stays in order when the event added is not a move, or is a
    move to what was published last. *)
Lemma moves_follow_publishes_snoc (conv : Z -> Z) (tr : list Event) (e : Event) :
  moves_follow_publishes conv tr ->
  (forall axis t, e = MoveTo axis t ->
     exists d, last_published axis tr = Some d /\ t = conv d) ->
  moves_follow_publishes conv (tr ++ [e]).
Proof.
  intros Htr He pre axis t post E.
  destruct post as [|x post _] using rev_ind.
  - apply app_inj_tail in E. destruct E as [-> ->]. apply He. reflexivity.
  - rewrite app_comm_cons, app_assoc in E.
    apply app_inj_tail in E. destruct E as [E _].
    apply (Htr pre axis t post E).
Qed.

Lemma moves_follow_publishes_nil (conv : Z -> Z) : moves_follow_publishes conv [].
Proof. intros pre axis t post E. destruct pre; discriminate. Qed.

(** What one quantum can do to the board. *)
Lemma Sketch2_motorTask_effect (idx : nat) (due : bool) (st : Sketch2.State) :
  let st' := Sketch2.motorTask idx due st in
  Sketch2.targetSteps st' = Sketch2.targetSteps st /\
  (Sketch2.wf st -> Sketch2.wf st') /\
  (forall i, Sketch2.moveFlag st' !! i = Some true ->
             Sketch2.moveFlag st !! i = Some true) /\
  (Sketch2.trace st' = Sketch2.trace st \/
   exists steps,
     Sketch2.moveFlag st !! idx = Some true /\
     Sketch2.targetSteps st !! idx = Some steps /\
     Sketch2.trace st'
     = Sketch2.trace st ++ [MoveTo idx (Sketch2.motorTask_target steps)]).
Proof.
  unfold Sketch2.motorTask, Sketch2.wf.
  destruct (Sketch2.taskPc st !! idx) as [pc|] eqn:Epc; [| simpl; tauto].
  destruct (Sketch2.moveFlag st !! idx) as [flag|] eqn:Ef; [| simpl; tauto].
  destruct (Sketch2.targetSteps st !! idx) as [steps|] eqn:Et; [| simpl; tauto].
  destruct (Sketch2.steppers st !! idx) as [m|] eqn:Em; [| simpl; tauto].
  destruct pc.
  - destruct flag; simpl; [| tauto].
    rewrite !length_insert. repeat split; try tauto.
    right. exists steps. auto.
  - destruct (distanceToGo m =? 0); simpl; rewrite !length_insert; tauto.
  - simpl. rewrite !length_insert. repeat split; try tauto.
    intros i Hi. destruct (decide (idx = i)) as [<- | N].
    + rewrite list_lookup_insert_eq in Hi by (eapply lookup_lt_Some; exact Ef).
      discriminate.
    + rewrite list_lookup_insert_ne in Hi by exact N. exact Hi.
Qed.

Lemma Sketch2_motorTask_inv (idx : nat) (due : bool) (st : Sketch2.State) :
  Sketch2_board_inv st ->
  Sketch2_board_inv (Sketch2.motorTask idx due st) /\
  (forall i, last_published i (Sketch2.trace (Sketch2.motorTask idx due st))
             = last_published i (Sketch2.trace st)).
Proof.
  intros (Hw & Hflag & Hslot & Htr).
  destruct (Sketch2_motorTask_effect idx due st) as (Et & Hw' & Hf' & Htr').
  assert (Hlast : forall i,
             last_published i (Sketch2.trace (Sketch2.motorTask idx due st))
             = last_published i (Sketch2.trace st)).
  { intros i. destruct Htr' as [-> | (steps & _ & _ & ->)];
      [reflexivity | apply last_published_move]. }
  split; [| exact Hlast].
  split; [exact (Hw' Hw) |]. split; [| split].
  - intros i Hi. rewrite Hlast. apply Hflag, Hf', Hi.
  - intros i d Hi Hd. rewrite Hlast in Hd. rewrite Et. apply Hslot; assumption.
  - destruct Htr' as [-> | (steps & Hf & Hs & ->)]; [exact Htr |].
    apply moves_follow_publishes_snoc; [exact Htr |].
    intros axis t E. injection E as <- <-.
    destruct (last_published idx (Sketch2.trace st)) as [d|] eqn:Ed;
      [| exfalso; exact (Hflag idx Hf Ed)].
    exists d. split; [reflexivity |].
    assert (Hi : (idx < MOTOR_COUNT)%nat).
    { destruct Hw as (Hl & _). rewrite <- Hl. eapply lookup_lt_Some. exact Hs. }
    rewrite (Hslot idx d Hi Ed) in Hs. injection Hs as <-. reflexivity.
Qed.

Lemma Sketch2_quanta_inv (qs : list (nat * bool)) (st : Sketch2.State) :
  Sketch2_board_inv st ->
  Sketch2_board_inv (Sketch2.quanta qs st) /\
  (forall i, last_published i (Sketch2.trace (Sketch2.quanta qs st))
             = last_published i (Sketch2.trace st)).
Proof.
  revert st. induction qs as [|[idx due] qs IH]; intros st Hinv.
  - split; [exact Hinv | reflexivity].
  - destruct (Sketch2_motorTask_inv idx due st Hinv) as [Hinv' Hl'].
    destruct (IH _ Hinv') as [Hinv'' Hl''].
    change (Sketch2.quanta ((idx, due) :: qs) st)
      with (Sketch2.quanta qs (Sketch2.motorTask idx due st)).
    split; [exact Hinv'' |]. intros i. rewrite Hl''. apply Hl'.
Qed.

Lemma Sketch2_store_target_inv (index : nat) (digit : Z) (st : Sketch2.State) :
  Sketch2_board_inv st ->
  Sketch2_board_inv (Sketch2.store_target index digit st) /\
  last_published index (Sketch2.trace (Sketch2.store_target index digit st))
  = Some (Sketch2.clamp digit).
Proof.
  intros (Hw & Hflag & Hslot & Htr). unfold Sketch2.store_target.
  split; [| apply last_published_same].
  split; [| split; [| split]]; simpl.
  - unfold Sketch2.wf in *. simpl. rewrite length_insert. exact Hw.
  - intros i Hi. destruct (decide (index = i)) as [<- | N].
    + rewrite last_published_same. discriminate.
    + rewrite last_published_other by exact N. apply Hflag, Hi.
  - intros i d Hi Hd. destruct (decide (index = i)) as [<- | N].
    + rewrite last_published_same in Hd. injection Hd as <-.
      apply list_lookup_insert_eq. destruct Hw as (Hl & _). rewrite Hl. exact Hi.
    + rewrite last_published_other in Hd by exact N.
      rewrite list_lookup_insert_ne by exact N. apply Hslot; assumption.
  - apply moves_follow_publishes_snoc; [exact Htr |]. intros axis t E. discriminate.
Qed.

Lemma Sketch2_raise_flag_inv (index : nat) (st : Sketch2.State) :
  Sketch2_board_inv st ->
  last_published index (Sketch2.trace st) <> None ->
  Sketch2_board_inv (Sketch2.raise_flag index st).
Proof.
  intros (Hw & Hflag & Hslot & Htr) Hpub. unfold Sketch2.raise_flag.
  split; [| split; [| split]]; simpl.
  - unfold Sketch2.wf in *. simpl. rewrite length_insert. exact Hw.
  - intros i Hi. destruct (decide (index = i)) as [<- | N]; [exact Hpub |].
    rewrite list_lookup_insert_ne in Hi by exact N. apply Hflag, Hi.
  - exact Hslot.
  - exact Htr.
Qed.

Lemma Sketch2_step_inv (a : Sketch2.Step) (st : Sketch2.State) :
  Sketch2_board_inv st -> Sketch2_board_inv (Sketch2.step a st).
Proof.
  intros Hinv. destruct a as [idx due | index digit between]; simpl.
  - apply Sketch2_motorTask_inv, Hinv.
  - destruct (Sketch2_store_target_inv index digit st Hinv) as [H1 Hl].
    destruct (Sketch2_quanta_inv between _ H1) as [H2 Hl'].
    apply Sketch2_raise_flag_inv; [exact H2 |]. rewrite Hl', Hl. discriminate.
Qed.

Lemma Sketch2_exec_inv (sched : list Sketch2.Step) (st : Sketch2.State) :
  Sketch2_board_inv st -> Sketch2_board_inv (Sketch2.exec sched st).
Proof.
  revert st. induction sched as [|a sched IH]; intros st Hinv; [exact Hinv |].
  apply (IH (Sketch2.step a st)), Sketch2_step_inv, Hinv.
Qed.

Lemma Sketch2_boot_inv : Sketch2_board_inv Sketch2.boot.
Proof.
  split; [repeat split |]. split; [| split].
  - intros i Hi. simpl in Hi. destruct i as [|[|[|[|i]]]]; discriminate.
  - intros i d _ Hd. discriminate.
  - apply moves_follow_publishes_nil.
Qed.

Lemma Sketch1_motorTask_effect (idx : nat) (due : bool) (st : Sketch1.State) :
  let st' := Sketch1.motorTask idx due st in
  Sketch1.motorTargets st' = Sketch1.motorTargets st /\
  (Sketch1.wf st -> Sketch1.wf st') /\
  (forall i, Sketch1.motorMoveFlags st' !! i = Some true ->
             Sketch1.motorMoveFlags st !! i = Some true) /\
  (Sketch1.trace st' = Sketch1.trace st \/
   exists steps,
     Sketch1.motorMoveFlags st !! idx = Some true /\
     Sketch1.motorTargets st !! idx = Some steps /\
     Sketch1.trace st'
     = Sketch1.trace st ++ [MoveTo idx (Sketch1.motorTask_target steps)]).
Proof.
  unfold Sketch1.motorTask, Sketch1.wf.
  destruct (Sketch1.taskPc st !! idx) as [pc|] eqn:Epc; [| simpl; tauto].
  destruct (Sketch1.motorMoveFlags st !! idx) as [flag|] eqn:Ef; [| simpl; tauto].
  destruct (Sketch1.motorTargets st !! idx) as [steps|] eqn:Et; [| simpl; tauto].
  destruct (Sketch1.motors st !! idx) as [m|] eqn:Em; [| simpl; tauto].
  destruct pc.
  - destruct flag; simpl; [| tauto].
    rewrite !length_insert. repeat split; try tauto.
    right. exists steps. auto.
  - destruct (distanceToGo m =? 0); simpl; rewrite !length_insert; tauto.
  - simpl. rewrite !length_insert. repeat split; try tauto.
    intros i Hi. destruct (decide (idx = i)) as [<- | N].
    + rewrite list_lookup_insert_eq in Hi by (eapply lookup_lt_Some; exact Ef).
      discriminate.
    + rewrite list_lookup_insert_ne in Hi by exact N. exact Hi.
Qed.

Lemma Sketch1_motorTask_inv (idx : nat) (due : bool) (st : Sketch1.State) :
  Sketch1_board_inv st ->
  Sketch1_board_inv (Sketch1.motorTask idx due st) /\
  (forall i, last_published i (Sketch1.trace (Sketch1.motorTask idx due st))
             = last_published i (Sketch1.trace st)).
Proof.
  intros (Hw & Hflag & Hslot & Htr).
  destruct (Sketch1_motorTask_effect idx due st) as (Et & Hw' & Hf' & Htr').
  assert (Hlast : forall i,
             last_published i (Sketch1.trace (Sketch1.motorTask idx due st))
             = last_published i (Sketch1.trace st)).
  { intros i. destruct Htr' as [-> | (steps & _ & _ & ->)];
      [reflexivity | apply last_published_move]. }
  split; [| exact Hlast].
  split; [exact (Hw' Hw) |]. split; [| split].
  - intros i Hi. rewrite Hlast. apply Hflag, Hf', Hi.
  - intros i d Hi Hd. rewrite Hlast in Hd. rewrite Et. apply Hslot; assumption.
  - destruct Htr' as [-> | (steps & Hf & Hs & ->)]; [exact Htr |].
    apply moves_follow_publishes_snoc; [exact Htr |].
    intros axis t E. injection E as <- <-.
    destruct (last_published idx (Sketch1.trace st)) as [d|] eqn:Ed;
      [| exfalso; exact (Hflag idx Hf Ed)].
    exists d. split; [reflexivity |].
    assert (Hi : (idx < MOTOR_COUNT)%nat).
    { destruct Hw as (Hl & _). rewrite <- Hl. eapply lookup_lt_Some. exact Hs. }
    rewrite (Hslot idx d Hi Ed) in Hs. injection Hs as <-. reflexivity.
Qed.

Lemma Sketch1_quanta_inv (qs : list (nat * bool)) (st : Sketch1.State) :
  Sketch1_board_inv st ->
  Sketch1_board_inv (Sketch1.quanta qs st) /\
  (forall i, last_published i (Sketch1.trace (Sketch1.quanta qs st))
             = last_published i (Sketch1.trace st)).
Proof.
  revert st. induction qs as [|[idx due] qs IH]; intros st Hinv.
  - split; [exact Hinv | reflexivity].
  - destruct (Sketch1_motorTask_inv idx due st Hinv) as [Hinv' Hl'].
    destruct (IH _ Hinv') as [Hinv'' Hl''].
    change (Sketch1.quanta ((idx, due) :: qs) st)
      with (Sketch1.quanta qs (Sketch1.motorTask idx due st)).
    split; [exact Hinv'' |]. intros i. rewrite Hl''. apply Hl'.
Qed.

Lemma Sketch1_store_target_inv (index : nat) (digit : Z) (st : Sketch1.State) :
  Sketch1_board_inv st ->
  Sketch1_board_inv (Sketch1.store_target index digit st) /\
  last_published index (Sketch1.trace (Sketch1.store_target index digit st))
  = Some digit.
Proof.
  intros (Hw & Hflag & Hslot & Htr). unfold Sketch1.store_target.
  split; [| apply last_published_same].
  split; [| split; [| split]]; simpl.
  - unfold Sketch1.wf in *. simpl. rewrite length_insert. exact Hw.
  - intros i Hi. destruct (decide (index = i)) as [<- | N].
    + rewrite last_published_same. discriminate.
    + rewrite last_published_other by exact N. apply Hflag, Hi.
  - intros i d Hi Hd. destruct (decide (index = i)) as [<- | N].
    + rewrite last_published_same in Hd. injection Hd as <-.
      apply list_lookup_insert_eq. destruct Hw as (Hl & _). rewrite Hl. exact Hi.
    + rewrite last_published_other in Hd by exact N.
      rewrite list_lookup_insert_ne by exact N. apply Hslot; assumption.
  - apply moves_follow_publishes_snoc; [exact Htr |]. intros axis t E. discriminate.
Qed.

Lemma Sketch1_raise_flag_inv (index : nat) (st : Sketch1.State) :
  Sketch1_board_inv st ->
  last_published index (Sketch1.trace st) <> None ->
  Sketch1_board_inv (Sketch1.raise_flag index st).
Proof.
  intros (Hw & Hflag & Hslot & Htr) Hpub. unfold Sketch1.raise_flag.
  split; [| split; [| split]]; simpl.
  - unfold Sketch1.wf in *. simpl. rewrite length_insert. exact Hw.
  - intros i Hi. destruct (decide (index = i)) as [<- | N]; [exact Hpub |].
    rewrite list_lookup_insert_ne in Hi by exact N. apply Hflag, Hi.
  - exact Hslot.
  - exact Htr.
Qed.

Lemma Sketch1_saveState_inv (epoch : Z) (st : Sketch1.State) :
  Sketch1_board_inv st -> Sketch1_board_inv (Sketch1.saveState epoch st).
Proof.
  intros (Hw & Hflag & Hslot & Htr). unfold Sketch1.saveState.
  split; [exact Hw |]. split; [| split]; simpl.
  - intros i Hi. rewrite last_published_persist. apply Hflag, Hi.
  - intros i d Hi Hd. rewrite last_published_persist in Hd. apply Hslot; assumption.
  - apply moves_follow_publishes_snoc; [exact Htr |]. intros axis t E. discriminate.
Qed.

Lemma Sketch1_step_inv (a : Sketch1.Step) (st : Sketch1.State) :
  Sketch1_board_inv st -> Sketch1_board_inv (Sketch1.step a st).
Proof.
  intros Hinv. destruct a as [idx due | index digit between | epoch]; simpl.
  - apply Sketch1_motorTask_inv, Hinv.
  - destruct (Sketch1_store_target_inv index digit st Hinv) as [H1 Hl].
    destruct (Sketch1_quanta_inv between _ H1) as [H2 Hl'].
    apply Sketch1_raise_flag_inv; [exact H2 |]. rewrite Hl', Hl. discriminate.
  - apply Sketch1_saveState_inv, Hinv.
Qed.

Lemma Sketch1_exec_inv (sched : list Sketch1.Step) (st : Sketch1.State) :
  Sketch1_board_inv st -> Sketch1_board_inv (Sketch1.exec sched st).
Proof.
  revert st. induction sched as [|a sched IH]; intros st Hinv; [exact Hinv |].
  apply (IH (Sketch1.step a st)), Sketch1_step_inv, Hinv.
Qed.

Lemma Sketch1_boot_inv (eeprom : Z) : Sketch1_board_inv (Sketch1.boot eeprom).
Proof.
  split; [repeat split |]. split; [| split].
  - intros i Hi. simpl in Hi. destruct i as [|[|[|[|i]]]]; discriminate.
  - intros i d _ Hd. discriminate.
  - apply moves_follow_publishes_nil.
Qed.

(** ** One whole move *)

Lemma Sketch2_run_task_app (idx : nat) (a b : list bool) (st : Sketch2.State) :
  Sketch2.run_task idx (a ++ b) st
  = Sketch2.run_task idx b (Sketch2.run_task idx a st).
Proof. unfold Sketch2.run_task. apply fold_left_app. Qed.

Lemma Sketch2_motorTask_starts
    (idx : nat) (due : bool) (steps : float) (m : AccelStepper) (st : Sketch2.State) :
  Sketch2.wf st ->
  Sketch2.taskPc st !! idx = Some AtPoll ->
  Sketch2.moveFlag st !! idx = Some true ->
  Sketch2.targetSteps st !! idx = Some steps ->
  Sketch2.steppers st !! idx = Some m ->
  let st' := Sketch2.motorTask idx due st in
  Sketch2.wf st' /\
  Sketch2.taskPc st' !! idx = Some InMove /\
  Sketch2.steppers st' !! idx = Some (moveTo (Sketch2.motorTask_target steps) m) /\
  Sketch2.moveFlag st' = Sketch2.moveFlag st /\
  Sketch2.targetSteps st' = Sketch2.targetSteps st /\
  Sketch2.trace st'
  = Sketch2.trace st ++ [MoveTo idx (Sketch2.motorTask_target steps)].
Proof.
  intros Hw Epc Ef Et Em. unfold Sketch2.motorTask, Sketch2.wf in *.
  rewrite Epc, Ef, Et, Em. simpl.
  rewrite !length_insert, !list_lookup_insert_eq by (eapply lookup_lt_Some; eassumption).
  tauto.
Qed.

Lemma Sketch2_motorTask_arrives
    (idx : nat) (due : bool) (m : AccelStepper) (st : Sketch2.State) :
  Sketch2.wf st -> (idx < MOTOR_COUNT)%nat ->
  Sketch2.taskPc st !! idx = Some InMove ->
  Sketch2.steppers st !! idx = Some m ->
  distanceToGo m = 0 ->
  let st' := Sketch2.motorTask idx due st in
  Sketch2.wf st' /\
  Sketch2.taskPc st' !! idx = Some AtClear /\
  Sketch2.steppers st' = Sketch2.steppers st /\
  Sketch2.moveFlag st' = Sketch2.moveFlag st /\
  Sketch2.targetSteps st' = Sketch2.targetSteps st /\
  Sketch2.trace st' = Sketch2.trace st.
Proof.
  intros Hw Hi Epc Em Hd. pose proof Hw as (Ht & Hf & Hs & Hp).
  destruct (lookup_lt_is_Some_2 (Sketch2.moveFlag st) idx) as [f Ef];
    [rewrite Hf; exact Hi |].
  destruct (lookup_lt_is_Some_2 (Sketch2.targetSteps st) idx) as [s Es];
    [rewrite Ht; exact Hi |].
  unfold Sketch2.motorTask, Sketch2.wf. rewrite Epc, Ef, Es, Em, Hd. simpl.
  rewrite !length_insert, !list_lookup_insert_eq by (rewrite Hp; exact Hi).
  tauto.
Qed.

Lemma Sketch2_motorTask_clears
    (idx : nat) (due : bool) (st : Sketch2.State) :
  Sketch2.wf st -> (idx < MOTOR_COUNT)%nat ->
  Sketch2.taskPc st !! idx = Some AtClear ->
  let st' := Sketch2.motorTask idx due st in
  Sketch2.wf st' /\
  Sketch2.taskPc st' !! idx = Some AtPoll /\
  Sketch2.moveFlag st' !! idx = Some false /\
  Sketch2.steppers st' = Sketch2.steppers st /\
  Sketch2.targetSteps st' = Sketch2.targetSteps st /\
  Sketch2.trace st' = Sketch2.trace st.
Proof.
  intros Hw Hi Epc. pose proof Hw as (Ht & Hf & Hs & Hp).
  destruct (lookup_lt_is_Some_2 (Sketch2.moveFlag st) idx) as [f Ef];
    [rewrite Hf; exact Hi |].
  destruct (lookup_lt_is_Some_2 (Sketch2.targetSteps st) idx) as [s Es];
    [rewrite Ht; exact Hi |].
  destruct (lookup_lt_is_Some_2 (Sketch2.steppers st) idx) as [m Em];
    [rewrite Hs; exact Hi |].
  unfold Sketch2.motorTask, Sketch2.wf. rewrite Epc, Ef, Es, Em. simpl.
  rewrite !length_insert, !list_lookup_insert_eq by (rewrite ?Hp, ?Hf; exact Hi).
  tauto.
Qed.

(** An idle task with the flag down does nothing, however long it runs. *)
Lemma Sketch2_run_task_idle (idx : nat) (sched : list bool) (st : Sketch2.State) :
  Sketch2.taskPc st !! idx = Some AtPoll ->
  Sketch2.moveFlag st !! idx = Some false ->
  Sketch2.run_task idx sched st = st.
Proof.
  intros Epc Ef. induction sched as [|due sched IH]; [reflexivity |].
  change (Sketch2.run_task idx (due :: sched) st)
    with (Sketch2.run_task idx sched (Sketch2.motorTask idx due st)).
  replace (Sketch2.motorTask idx due st) with st; [exact IH |].
  unfold Sketch2.motorTask. rewrite Epc, Ef.
  destruct (Sketch2.targetSteps st !! idx); [| reflexivity].
  destruct (Sketch2.steppers st !! idx); reflexivity.
Qed.

Lemma Sketch2_move_completes_wf (idx n : nat) (st : Sketch2.State) :
  Sketch2.wf st -> Sketch2.wf (Sketch2.run_task idx (replicate n true) st).
Proof.
  revert st. induction n as [|n IH]; intros st Hw; [exact Hw |].
  change (Sketch2.run_task idx (replicate (S n) true) st)
    with (Sketch2.run_task idx (replicate n true) (Sketch2.motorTask idx true st)).
  apply IH. destruct (Sketch2_motorTask_effect idx true st) as (_ & H & _).
  exact (H Hw).
Qed.

Lemma Sketch2_whole_move
    (idx : nat) (digit : Z) (d1 d2 d3 : bool) (sched : list bool)
    (m : AccelStepper) (st : Sketch2.State) :
  Sketch2.wf st -> (idx < MOTOR_COUNT)%nat ->
  Sketch2.taskPc st !! idx = Some AtPoll ->
  Sketch2.steppers st !! idx = Some m ->
  let target := Sketch2.motorTask_target (Sketch2.steps_of_digit (Sketch2.clamp digit)) in
  let n := Z.to_nat (Z.abs (target - currentPosition m)) in
  let st' := Sketch2.run_task idx (d1 :: replicate n true ++ [d2; d3] ++ sched)
               (Sketch2.setMotorDigit idx digit st) in
  Sketch2.taskPc st' !! idx = Some AtPoll /\
  Sketch2.moveFlag st' !! idx = Some false /\
  Sketch2.steppers st' !! idx = Some (mkStepper target target) /\
  Sketch2.targetSteps st' !! idx = Some (Sketch2.steps_of_digit (Sketch2.clamp digit)) /\
  Sketch2.trace st'
  = Sketch2.trace st ++ [Publish idx (Sketch2.clamp digit); MoveTo idx target].
Proof.
  intros Hw Hi Epc Em target n st'.
  destruct (Sketch2_setMotorDigit_slot idx digit st Hw Hi) as (Hw0 & Es0 & Ef0).
  set (s0 := Sketch2.setMotorDigit idx digit st) in *.
  destruct (Sketch2_motorTask_starts idx d1 _ m s0 Hw0 Epc Ef0 Es0 Em)
    as (Hw1 & Epc1 & Em1 & Ef1 & Et1 & Htr1).
  fold target in Em1, Htr1.
  set (s1 := Sketch2.motorTask idx d1 s0) in *.
  assert (Hn : Z.abs (distanceToGo (moveTo target m)) = Z.of_nat n).
  { unfold distanceToGo, moveTo. simpl. subst n. rewrite Z2Nat.id; lia. }
  destruct (Sketch2_move_completes idx n s1 _ Hw1 Hi Epc1 Em1 Hn)
    as (Em2 & Epc2 & Et2 & Ef2 & Htr2).
  pose proof (Sketch2_move_completes_wf idx n s1 Hw1) as Hw2.
  set (s2 := Sketch2.run_task idx (replicate n true) s1) in *.
  simpl in Em2.
  destruct (Sketch2_motorTask_arrives idx d2 _ s2 Hw2 Hi Epc2 Em2)
    as (Hw3 & Epc3 & Em3 & Ef3 & Et3 & Htr3);
    [unfold distanceToGo; simpl; lia |].
  set (s3 := Sketch2.motorTask idx d2 s2) in *.
  destruct (Sketch2_motorTask_clears idx d3 s3 Hw3 Hi Epc3)
    as (Hw4 & Epc4 & Ef4 & Em4 & Et4 & Htr4).
  set (s4 := Sketch2.motorTask idx d3 s3) in *.
  assert (E : st' = s4).
  { subst st'.
    change (Sketch2.run_task idx (d1 :: replicate n true ++ [d2; d3] ++ sched) s0)
      with (Sketch2.run_task idx (replicate n true ++ [d2; d3] ++ sched) s1).
    rewrite !Sketch2_run_task_app. fold s2.
    change (Sketch2.run_task idx [d2; d3] s2) with s4.
    apply Sketch2_run_task_idle; assumption. }
  rewrite E, Epc4, Ef4, Em4, Em3, Em2, Et4, Et3, Et2, Et1, Es0.
  rewrite Htr4, Htr3, Htr2, Htr1.
  repeat split. subst s0. simpl. rewrite <- app_assoc. reflexivity.
Qed.

Lemma Sketch1_run_task_app (idx : nat) (a b : list bool) (st : Sketch1.State) :
  Sketch1.run_task idx (a ++ b) st
  = Sketch1.run_task idx b (Sketch1.run_task idx a st).
Proof. unfold Sketch1.run_task. apply fold_left_app. Qed.

Lemma Sketch1_motorTask_starts
    (idx : nat) (due : bool) (digit : Z) (m : AccelStepper) (st : Sketch1.State) :
  Sketch1.wf st ->
  Sketch1.taskPc st !! idx = Some AtPoll ->
  Sketch1.motorMoveFlags st !! idx = Some true ->
  Sketch1.motorTargets st !! idx = Some digit ->
  Sketch1.motors st !! idx = Some m ->
  let st' := Sketch1.motorTask idx due st in
  Sketch1.wf st' /\
  Sketch1.taskPc st' !! idx = Some InMove /\
  Sketch1.motors st' !! idx = Some (moveTo (Sketch1.motorTask_target digit) m) /\
  Sketch1.motorMoveFlags st' = Sketch1.motorMoveFlags st /\
  Sketch1.motorTargets st' = Sketch1.motorTargets st /\
  Sketch1.trace st'
  = Sketch1.trace st ++ [MoveTo idx (Sketch1.motorTask_target digit)].
Proof.
  intros Hw Epc Ef Et Em. unfold Sketch1.motorTask, Sketch1.wf in *.
  rewrite Epc, Ef, Et, Em. simpl.
  rewrite !length_insert, !list_lookup_insert_eq by (eapply lookup_lt_Some; eassumption).
  tauto.
Qed.

Lemma Sketch1_motorTask_arrives
    (idx : nat) (due : bool) (m : AccelStepper) (st : Sketch1.State) :
  Sketch1.wf st -> (idx < MOTOR_COUNT)%nat ->
  Sketch1.taskPc st !! idx = Some InMove ->
  Sketch1.motors st !! idx = Some m ->
  distanceToGo m = 0 ->
  let st' := Sketch1.motorTask idx due st in
  Sketch1.wf st' /\
  Sketch1.taskPc st' !! idx = Some AtClear /\
  Sketch1.motors st' = Sketch1.motors st /\
  Sketch1.motorMoveFlags st' = Sketch1.motorMoveFlags st /\
  Sketch1.motorTargets st' = Sketch1.motorTargets st /\
  Sketch1.trace st' = Sketch1.trace st.
Proof.
  intros Hw Hi Epc Em Hd. pose proof Hw as (Ht & Hf & Hs & Hp).
  destruct (lookup_lt_is_Some_2 (Sketch1.motorMoveFlags st) idx) as [f Ef];
    [rewrite Hf; exact Hi |].
  destruct (lookup_lt_is_Some_2 (Sketch1.motorTargets st) idx) as [s Es];
    [rewrite Ht; exact Hi |].
  unfold Sketch1.motorTask, Sketch1.wf. rewrite Epc, Ef, Es, Em, Hd. simpl.
  rewrite !length_insert, !list_lookup_insert_eq by (rewrite Hp; exact Hi).
  tauto.
Qed.

Lemma Sketch1_motorTask_clears
    (idx : nat) (due : bool) (st : Sketch1.State) :
  Sketch1.wf st -> (idx < MOTOR_COUNT)%nat ->
  Sketch1.taskPc st !! idx = Some AtClear ->
  let st' := Sketch1.motorTask idx due st in
  Sketch1.wf st' /\
  Sketch1.taskPc st' !! idx = Some AtPoll /\
  Sketch1.motorMoveFlags st' !! idx = Some false /\
  Sketch1.motors st' = Sketch1.motors st /\
  Sketch1.motorTargets st' = Sketch1.motorTargets st /\
  Sketch1.trace st' = Sketch1.trace st.
Proof.
  intros Hw Hi Epc. pose proof Hw as (Ht & Hf & Hs & Hp).
  destruct (lookup_lt_is_Some_2 (Sketch1.motorMoveFlags st) idx) as [f Ef];
    [rewrite Hf; exact Hi |].
  destruct (lookup_lt_is_Some_2 (Sketch1.motorTargets st) idx) as [s Es];
    [rewrite Ht; exact Hi |].
  destruct (lookup_lt_is_Some_2 (Sketch1.motors st) idx) as [m Em];
    [rewrite Hs; exact Hi |].
  unfold Sketch1.motorTask, Sketch1.wf. rewrite Epc, Ef, Es, Em. simpl.
  rewrite !length_insert, !list_lookup_insert_eq by (rewrite ?Hp, ?Hf; exact Hi).
  tauto.
Qed.

Lemma Sketch1_run_task_idle (idx : nat) (sched : list bool) (st : Sketch1.State) :
  Sketch1.taskPc st !! idx = Some AtPoll ->
  Sketch1.motorMoveFlags st !! idx = Some false ->
  Sketch1.run_task idx sched st = st.
Proof.
  intros Epc Ef. induction sched as [|due sched IH]; [reflexivity |].
  change (Sketch1.run_task idx (due :: sched) st)
    with (Sketch1.run_task idx sched (Sketch1.motorTask idx due st)).
  replace (Sketch1.motorTask idx due st) with st; [exact IH |].
  unfold Sketch1.motorTask. rewrite Epc, Ef.
  destruct (Sketch1.motorTargets st !! idx); [| reflexivity].
  destruct (Sketch1.motors st !! idx); reflexivity.
Qed.

Lemma Sketch1_move_completes_wf (idx n : nat) (st : Sketch1.State) :
  Sketch1.wf st -> Sketch1.wf (Sketch1.run_task idx (replicate n true) st).
Proof.
  revert st. induction n as [|n IH]; intros st Hw; [exact Hw |].
  change (Sketch1.run_task idx (replicate (S n) true) st)
    with (Sketch1.run_task idx (replicate n true) (Sketch1.motorTask idx true st)).
  apply IH. destruct (Sketch1_motorTask_effect idx true st) as (_ & H & _).
  exact (H Hw).
Qed.

Lemma Sketch1_whole_move
    (idx : nat) (digit : Z) (d1 d2 d3 : bool) (sched : list bool)
    (m : AccelStepper) (st : Sketch1.State) :
  Sketch1.wf st -> (idx < MOTOR_COUNT)%nat ->
  Sketch1.taskPc st !! idx = Some AtPoll ->
  Sketch1.motors st !! idx = Some m ->
  let target := Sketch1.motorTask_target digit in
  let n := Z.to_nat (Z.abs (target - currentPosition m)) in
  let st' := Sketch1.run_task idx (d1 :: replicate n true ++ [d2; d3] ++ sched)
               (Sketch1.moveToDigit idx digit st) in
  Sketch1.taskPc st' !! idx = Some AtPoll /\
  Sketch1.motorMoveFlags st' !! idx = Some false /\
  Sketch1.motors st' !! idx = Some (mkStepper target target) /\
  Sketch1.motorTargets st' !! idx = Some digit /\
  Sketch1.trace st'
  = Sketch1.trace st ++ [Publish idx digit; MoveTo idx target].
Proof.
  intros Hw Hi Epc Em target n st'.
  destruct (Sketch1_moveToDigit_slot idx digit st Hw Hi) as (Hw0 & Es0 & Ef0).
  set (s0 := Sketch1.moveToDigit idx digit st) in *.
  destruct (Sketch1_motorTask_starts idx d1 _ m s0 Hw0 Epc Ef0 Es0 Em)
    as (Hw1 & Epc1 & Em1 & Ef1 & Et1 & Htr1).
  fold target in Em1, Htr1.
  set (s1 := Sketch1.motorTask idx d1 s0) in *.
  assert (Hn : Z.abs (distanceToGo (moveTo target m)) = Z.of_nat n).
  { unfold distanceToGo, moveTo. simpl. subst n. rewrite Z2Nat.id; lia. }
  destruct (Sketch1_move_completes idx n s1 _ Hw1 Hi Epc1 Em1 Hn)
    as (Em2 & Epc2 & Et2 & Ef2 & Htr2).
  pose proof (Sketch1_move_completes_wf idx n s1 Hw1) as Hw2.
  set (s2 := Sketch1.run_task idx (replicate n true) s1) in *.
  simpl in Em2.
  destruct (Sketch1_motorTask_arrives idx d2 _ s2 Hw2 Hi Epc2 Em2)
    as (Hw3 & Epc3 & Em3 & Ef3 & Et3 & Htr3);
    [unfold distanceToGo; simpl; lia |].
  set (s3 := Sketch1.motorTask idx d2 s2) in *.
  destruct (Sketch1_motorTask_clears idx d3 s3 Hw3 Hi Epc3)
    as (Hw4 & Epc4 & Ef4 & Em4 & Et4 & Htr4).
  set (s4 := Sketch1.motorTask idx d3 s3) in *.
  assert (E : st' = s4).
  { subst st'.
    change (Sketch1.run_task idx (d1 :: replicate n true ++ [d2; d3] ++ sched) s0)
      with (Sketch1.run_task idx (replicate n true ++ [d2; d3] ++ sched) s1).
    rewrite !Sketch1_run_task_app. fold s2.
    change (Sketch1.run_task idx [d2; d3] s2) with s4.
    apply Sketch1_run_task_idle; assumption. }
  rewrite E, Epc4, Ef4, Em4, Em3, Em2, Et4, Et3, Et2, Et1, Es0.
  rewrite Htr4, Htr3, Htr2, Htr1.
  repeat split. subst s0. simpl. rewrite <- app_assoc. reflexivity.
Qed.

(** ** Theorems beyond the claims *)

Lemma Sketch1_moveToDigit_is_step (motor : nat) (digit : Z) (st : Sketch1.State) :
  Sketch1.moveToDigit motor digit st
  = Sketch1.step (Sketch1.Publication motor digit []) st.
Proof. reflexivity. Qed.

Lemma Sketch2_setMotorDigit_is_step (index : nat) (digit : Z) (st : Sketch2.State) :
  Sketch2.setMotorDigit index digit st
  = Sketch2.step (Sketch2.Publication index digit []) st.
Proof. reflexivity. Qed.

Lemma Sketch1_updateDisplay_is_schedule (dt : DateTime) (st : Sketch1.State) :
  exists d0 d1 d2 d3,
    Sketch1.updateDisplay dt st
    = Sketch1.exec [Sketch1.Publication 0 d0 []; Sketch1.Publication 1 d1 [];
                    Sketch1.Publication 2 d2 []; Sketch1.Publication 3 d3 [];
                    Sketch1.Save (unixtime dt)] st.
Proof. do 4 eexists. reflexivity. Qed.

Lemma Sketch2_updateDisplay_is_schedule (dt : DateTime) (st : Sketch2.State) :
  exists d0 d1 d2 d3,
    Sketch2.updateDisplay dt st
    = Sketch2.exec [Sketch2.Publication 0 d0 []; Sketch2.Publication 1 d1 [];
                    Sketch2.Publication 2 d2 []; Sketch2.Publication 3 d3 []] st.
Proof. do 4 eexists. reflexivity. Qed.

(** X1: from boot, however the quanta of the four tasks, the publishes
    (with any quanta between the two writes of a publish) and the saves
    are scheduled, every [moveTo] a task makes goes to the step count of
    the digit published last to its own axis: never to a digit of another
    axis, never to an older digit, never without a publish. *)
Theorem X1_moves_follow_publishes
    (eeprom : Z) (sched1 : list Sketch1.Step) (sched2 : list Sketch2.Step) :
  moves_follow_publishes Sketch1.motorTask_target
    (Sketch1.trace (Sketch1.exec sched1 (Sketch1.boot eeprom))) /\
  moves_follow_publishes
    (fun d => Sketch2.motorTask_target (Sketch2.steps_of_digit d))
    (Sketch2.trace (Sketch2.exec sched2 Sketch2.boot)).
Proof.
  split.
  - apply (Sketch1_exec_inv sched1 _ (Sketch1_boot_inv eeprom)).
  - apply (Sketch2_exec_inv sched2 _ Sketch2_boot_inv).
Qed.

Lemma target_table (d : Z) :
  0 <= d <= 10 ->
  Sketch1.motorTask_target d = d * 13088 / 45 /\
  Sketch2.motorTask_target (Sketch2.steps_of_digit d) = d * 13088 / 45.
Proof. intros H. each_digit d H; vm_compute; split; reflexivity. Qed.

(** X2: an idle axis that is given a digit d in [0,10] makes exactly one
    move and comes to rest on it.  With the stepper at position p, after
    the quantum that takes the digit, |target - p| quanta that each make
    a step, and two more quanta, the task is back at its poll with the
    flag down and the stepper stands on target = d * 13088 / 45; running
    on changes nothing, and the trace has gained the publish and one
    [moveTo]. *)
Theorem X2_whole_move
    (idx : nat) (digit : Z) (d1 d2 d3 : bool) (sched : list bool)
    (m1 m2 : AccelStepper) (s1 : Sketch1.State) (s2 : Sketch2.State) :
  (idx < MOTOR_COUNT)%nat -> 0 <= digit <= 10 ->
  Sketch1.wf s1 -> Sketch1.taskPc s1 !! idx = Some AtPoll ->
  Sketch1.motors s1 !! idx = Some m1 ->
  Sketch2.wf s2 -> Sketch2.taskPc s2 !! idx = Some AtPoll ->
  Sketch2.steppers s2 !! idx = Some m2 ->
  let target := digit * 13088 / 45 in
  let quanta_for m :=
    d1 :: replicate (Z.to_nat (Z.abs (target - currentPosition m))) true
       ++ [d2; d3] ++ sched in
  let r1 := Sketch1.run_task idx (quanta_for m1) (Sketch1.moveToDigit idx digit s1) in
  let r2 := Sketch2.run_task idx (quanta_for m2) (Sketch2.setMotorDigit idx digit s2) in
  (Sketch1.taskPc r1 !! idx = Some AtPoll /\
   Sketch1.motorMoveFlags r1 !! idx = Some false /\
   Sketch1.motors r1 !! idx = Some (mkStepper target target) /\
   Sketch1.motorTargets r1 !! idx = Some digit /\
   Sketch1.trace r1 = Sketch1.trace s1 ++ [Publish idx digit; MoveTo idx target]) /\
  (Sketch2.taskPc r2 !! idx = Some AtPoll /\
   Sketch2.moveFlag r2 !! idx = Some false /\
   Sketch2.steppers r2 !! idx = Some (mkStepper target target) /\
   Sketch2.targetSteps r2 !! idx = Some (Sketch2.steps_of_digit digit) /\
   Sketch2.trace r2 = Sketch2.trace s2 ++ [Publish idx digit; MoveTo idx target]).
Proof.
  intros Hi Hd Hw1 Hp1 Hm1 Hw2 Hp2 Hm2 target quanta_for r1 r2.
  destruct (target_table digit Hd) as [T1 T2].
  split.
  - pose proof (Sketch1_whole_move idx digit d1 d2 d3 sched m1 s1 Hw1 Hi Hp1 Hm1) as H.
    cbv zeta in H. rewrite T1 in H. exact H.
  - pose proof (Sketch2_whole_move idx digit d1 d2 d3 sched m2 s2 Hw2 Hi Hp2 Hm2) as H.
    cbv zeta in H. rewrite (clamp_small digit) in H by lia. rewrite T2 in H. exact H.
Qed.

Lemma X2_whole_move_witness :
  Sketch2.steppers
    (Sketch2.run_task 3 (true :: replicate 2908 true ++ [true; true] ++ [true; false])
       (Sketch2.setMotorDigit 3 10 Sketch2.boot)) !! 3%nat
  = Some (mkStepper 2908 2908).
Proof.
  assert (W1 : Sketch1.wf (Sketch1.boot 0)) by (repeat split).
  assert (W2 : Sketch2.wf Sketch2.boot) by (repeat split).
  exact (proj1 (proj2 (proj2 (proj2
    (X2_whole_move 3 10 true true true [true; false]
       (mkStepper 0 0) (mkStepper 0 0) (Sketch1.boot 0) Sketch2.boot
       ltac:(unfold MOTOR_COUNT; lia) ltac:(lia)
       W1 eq_refl eq_refl W2 eq_refl eq_refl))))).
Defined.

(** ** The axes are independent *)

Lemma Sketch2_motorTask_other (idx j : nat) (due : bool) (st : Sketch2.State) :
  idx <> j -> Sketch2_axis j (Sketch2.motorTask idx due st) = Sketch2_axis j st.
Proof.
  intros N. unfold Sketch2_axis, Sketch2.motorTask.
  destruct (Sketch2.taskPc st !! idx) as [pc|]; [| reflexivity].
  destruct (Sketch2.moveFlag st !! idx) as [flag|]; [| reflexivity].
  destruct (Sketch2.targetSteps st !! idx) as [steps|]; [| reflexivity].
  destruct (Sketch2.steppers st !! idx) as [m|]; [| reflexivity].
  destruct pc; [destruct flag | destruct (distanceToGo m =? 0) |]; simpl;
    rewrite ?list_lookup_insert_ne by exact N; reflexivity.
Qed.

Lemma Sketch2_quanta_other (j : nat) (qs : list (nat * bool)) (st : Sketch2.State) :
  Forall (fun q => fst q <> j) qs ->
  Sketch2_axis j (Sketch2.quanta qs st) = Sketch2_axis j st.
Proof.
  intros H. revert st. induction H as [|[idx due] qs N _ IH]; intros st; [reflexivity |].
  change (Sketch2.quanta ((idx, due) :: qs) st)
    with (Sketch2.quanta qs (Sketch2.motorTask idx due st)).
  rewrite IH. apply Sketch2_motorTask_other. exact N.
Qed.

Lemma Sketch2_quanta_keep_slots (qs : list (nat * bool)) (st : Sketch2.State) :
  Sketch2.targetSteps (Sketch2.quanta qs st) = Sketch2.targetSteps st.
Proof.
  revert st. induction qs as [|[idx due] qs IH]; intros st; [reflexivity |].
  change (Sketch2.quanta ((idx, due) :: qs) st)
    with (Sketch2.quanta qs (Sketch2.motorTask idx due st)).
  rewrite IH. apply Sketch2_motorTask_effect.
Qed.

Lemma Sketch2_step_other (j : nat) (a : Sketch2.Step) (st : Sketch2.State) :
  Sketch2_avoids j a -> Sketch2_axis j (Sketch2.step a st) = Sketch2_axis j st.
Proof.
  destruct a as [idx due | index digit between]; simpl.
  - apply Sketch2_motorTask_other.
  - intros [N Hb].
    transitivity (Sketch2_axis j (Sketch2.quanta between
                                    (Sketch2.store_target index digit st))).
    + unfold Sketch2_axis, Sketch2.raise_flag. simpl.
      rewrite list_lookup_insert_ne by exact N. reflexivity.
    + rewrite Sketch2_quanta_other by exact Hb.
      unfold Sketch2_axis, Sketch2.store_target. simpl.
      rewrite list_lookup_insert_ne by exact N. reflexivity.
Qed.

Lemma Sketch2_exec_other (j : nat) (sched : list Sketch2.Step) (st : Sketch2.State) :
  Forall (Sketch2_avoids j) sched ->
  Sketch2_axis j (Sketch2.exec sched st) = Sketch2_axis j st.
Proof.
  intros H. revert st. induction H as [|a sched Ha _ IH]; intros st; [reflexivity |].
  change (Sketch2.exec (a :: sched) st) with (Sketch2.exec sched (Sketch2.step a st)).
  rewrite IH. apply Sketch2_step_other. exact Ha.
Qed.

Lemma Sketch1_motorTask_other (idx j : nat) (due : bool) (st : Sketch1.State) :
  idx <> j -> Sketch1_axis j (Sketch1.motorTask idx due st) = Sketch1_axis j st.
Proof.
  intros N. unfold Sketch1_axis, Sketch1.motorTask.
  destruct (Sketch1.taskPc st !! idx) as [pc|]; [| reflexivity].
  destruct (Sketch1.motorMoveFlags st !! idx) as [flag|]; [| reflexivity].
  destruct (Sketch1.motorTargets st !! idx) as [steps|]; [| reflexivity].
  destruct (Sketch1.motors st !! idx) as [m|]; [| reflexivity].
  destruct pc; [destruct flag | destruct (distanceToGo m =? 0) |]; simpl;
    rewrite ?list_lookup_insert_ne by exact N; reflexivity.
Qed.

Lemma Sketch1_quanta_other (j : nat) (qs : list (nat * bool)) (st : Sketch1.State) :
  Forall (fun q => fst q <> j) qs ->
  Sketch1_axis j (Sketch1.quanta qs st) = Sketch1_axis j st.
Proof.
  intros H. revert st. induction H as [|[idx due] qs N _ IH]; intros st; [reflexivity |].
  change (Sketch1.quanta ((idx, due) :: qs) st)
    with (Sketch1.quanta qs (Sketch1.motorTask idx due st)).
  rewrite IH. apply Sketch1_motorTask_other. exact N.
Qed.

Lemma Sketch1_quanta_keep_slots (qs : list (nat * bool)) (st : Sketch1.State) :
  Sketch1.motorTargets (Sketch1.quanta qs st) = Sketch1.motorTargets st.
Proof.
  revert st. induction qs as [|[idx due] qs IH]; intros st; [reflexivity |].
  change (Sketch1.quanta ((idx, due) :: qs) st)
    with (Sketch1.quanta qs (Sketch1.motorTask idx due st)).
  rewrite IH. apply Sketch1_motorTask_effect.
Qed.

Lemma Sketch1_step_other (j : nat) (a : Sketch1.Step) (st : Sketch1.State) :
  Sketch1_avoids j a -> Sketch1_axis j (Sketch1.step a st) = Sketch1_axis j st.
Proof.
  destruct a as [idx due | index digit between | epoch]; simpl;
    [| | reflexivity].
  - apply Sketch1_motorTask_other.
  - intros [N Hb].
    transitivity (Sketch1_axis j (Sketch1.quanta between
                                    (Sketch1.store_target index digit st))).
    + unfold Sketch1_axis, Sketch1.raise_flag. simpl.
      rewrite list_lookup_insert_ne by exact N. reflexivity.
    + rewrite Sketch1_quanta_other by exact Hb.
      unfold Sketch1_axis, Sketch1.store_target. simpl.
      rewrite list_lookup_insert_ne by exact N. reflexivity.
Qed.

Lemma Sketch1_exec_other (j : nat) (sched : list Sketch1.Step) (st : Sketch1.State) :
  Forall (Sketch1_avoids j) sched ->
  Sketch1_axis j (Sketch1.exec sched st) = Sketch1_axis j st.
Proof.
  intros H. revert st. induction H as [|a sched Ha _ IH]; intros st; [reflexivity |].
  change (Sketch1.exec (a :: sched) st) with (Sketch1.exec sched (Sketch1.step a st)).
  rewrite IH. apply Sketch1_step_other. exact Ha.
Qed.

Lemma Sketch1_quanta_keep_EEPROM (qs : list (nat * bool)) (st : Sketch1.State) :
  Sketch1.EEPROM (Sketch1.quanta qs st) = Sketch1.EEPROM st.
Proof.
  revert st. induction qs as [|[idx due] qs IH]; intros st; [reflexivity |].
  change (Sketch1.quanta ((idx, due) :: qs) st)
    with (Sketch1.quanta qs (Sketch1.motorTask idx due st)).
  rewrite IH. unfold Sketch1.motorTask.
  destruct (Sketch1.taskPc st !! idx) as [pc|]; [| reflexivity].
  destruct (Sketch1.motorMoveFlags st !! idx) as [flag|]; [| reflexivity].
  destruct (Sketch1.motorTargets st !! idx) as [digit|]; [| reflexivity].
  destruct (Sketch1.motors st !! idx) as [m|]; [| reflexivity].
  destruct pc; [destruct flag | destruct (distanceToGo m =? 0) |]; reflexivity.
Qed.

(** X3: the axes are independent.  Whatever is scheduled, as long as it
    is no quantum of the task of axis j and no publish to axis j, the
    slot, the flag, the stepper and the task of axis j stay as they are;
    and the tasks, however many quanta they run, never write a slot nor
    the EEPROM cell. *)
Theorem X3_axes_independent
    (j : nat) (sched1 : list Sketch1.Step) (sched2 : list Sketch2.Step)
    (qs : list (nat * bool)) (s1 : Sketch1.State) (s2 : Sketch2.State) :
  Forall (Sketch1_avoids j) sched1 -> Forall (Sketch2_avoids j) sched2 ->
  Sketch1_axis j (Sketch1.exec sched1 s1) = Sketch1_axis j s1 /\
  Sketch2_axis j (Sketch2.exec sched2 s2) = Sketch2_axis j s2 /\
  Sketch1.motorTargets (Sketch1.quanta qs s1) = Sketch1.motorTargets s1 /\
  Sketch1.EEPROM (Sketch1.quanta qs s1) = Sketch1.EEPROM s1 /\
  Sketch2.targetSteps (Sketch2.quanta qs s2) = Sketch2.targetSteps s2.
Proof.
  intros H1 H2.
  split; [apply Sketch1_exec_other, H1 |].
  split; [apply Sketch2_exec_other, H2 |].
  split; [apply Sketch1_quanta_keep_slots |].
  split; [apply Sketch1_quanta_keep_EEPROM | apply Sketch2_quanta_keep_slots].
Qed.

Lemma X3_axes_independent_witness :
  Sketch2_axis 3
    (Sketch2.exec [Sketch2.Publication 0 7 [(1%nat, true)]; Sketch2.Quantum 0 true;
                   Sketch2.Quantum 0 true] Sketch2.boot)
  = Sketch2_axis 3 Sketch2.boot.
Proof.
  refine (proj1 (proj2
    (X3_axes_independent 3 [Sketch1.Save 5]
       [Sketch2.Publication 0 7 [(1%nat, true)]; Sketch2.Quantum 0 true;
        Sketch2.Quantum 0 true] [] (Sketch1.boot 0) Sketch2.boot _ _))).
  - repeat constructor.
  - repeat constructor; simpl; lia.
Defined.

(** ** Geometry *)

(** X4: truncation keeps the digits apart.  In both sketches the step
    targets of two different digits (blank included) differ by at least
    290 steps, growing with the digit, and every target lies within one
    revolution of the motor: 0 <= target < STEPS_PER_REV = 3200. *)
Theorem X4_targets_apart (a b : Z) :
  0 <= a -> a < b -> b <= 10 ->
  Sketch1.motorTask_target a + 290 <= Sketch1.motorTask_target b /\
  Sketch2.motorTask_target (Sketch2.steps_of_digit a) + 290
    <= Sketch2.motorTask_target (Sketch2.steps_of_digit b) /\
  0 <= Sketch1.motorTask_target a /\
  Sketch1.motorTask_target b < STEPS_PER_REV /\
  0 <= Sketch2.motorTask_target (Sketch2.steps_of_digit a) /\
  Sketch2.motorTask_target (Sketch2.steps_of_digit b) < STEPS_PER_REV.
Proof.
  intros Ha Hab Hb.
  destruct (target_table a ltac:(lia)) as [-> ->].
  destruct (target_table b ltac:(lia)) as [-> ->].
  change STEPS_PER_REV with 3200.
  repeat split; Z.div_mod_to_equations; lia.
Qed.

Lemma X4_targets_apart_witness :
  Sketch1.motorTask_target 6 + 290 <= Sketch1.motorTask_target 7.
Proof.
  exact (proj1 (X4_targets_apart 6 7 ltac:(lia) ltac:(lia) ltac:(lia))).
Defined.

(** ** The main loop *)

Lemma Sketch1_loop_same_minute (now : DateTime) (dv : Sketch1.Device) :
  minute now = Sketch1.lastMinute dv ->
  Sketch1.loop now (fun d => d) dv = dv.
Proof.
  intros E. unfold Sketch1.loop. rewrite E, Z.eqb_refl. reflexivity.
Qed.

Lemma Sketch2_loop_same_minute (now : DateTime) (dv : Sketch2.Device) :
  minute now = Sketch2.lastMinute dv ->
  Sketch2.loop (fun d => d) now dv = dv.
Proof.
  intros E. unfold Sketch2.loop. rewrite E, Z.eqb_refl. reflexivity.
Qed.

Lemma Sketch1_loop_lastMinute (now : DateTime) (dv : Sketch1.Device) :
  is_uint8 (minute now) ->
  Sketch1.lastMinute (Sketch1.loop now (fun d => d) dv) = minute now.
Proof.
  intros H. unfold Sketch1.loop.
  destruct (minute now =? Sketch1.lastMinute dv) eqn:E; simpl.
  - symmetry. apply Z.eqb_eq. exact E.
  - apply to_uint8_small. exact H.
Qed.

Lemma Sketch2_loop_lastMinute (now : DateTime) (dv : Sketch2.Device) :
  is_uint8 (minute now) ->
  Sketch2.lastMinute (Sketch2.loop (fun d => d) now dv) = minute now.
Proof.
  intros H. unfold Sketch2.loop.
  destruct (minute now =? Sketch2.lastMinute dv) eqn:E; simpl.
  - symmetry. apply Z.eqb_eq. exact E.
  - apply to_uint8_small. exact H.
Qed.

Lemma Sketch1_loops_same_minute (m : Z) (nows : list DateTime) (dv : Sketch1.Device) :
  Sketch1.lastMinute dv = m -> Forall (fun r => minute r = m) nows ->
  Sketch1.loops nows dv = dv.
Proof.
  intros E H. induction H as [|r nows Hr _ IH]; [reflexivity |].
  change (Sketch1.loops (r :: nows) dv)
    with (Sketch1.loops nows (Sketch1.loop r (fun d => d) dv)).
  rewrite Sketch1_loop_same_minute by congruence. exact IH.
Qed.

Lemma Sketch2_loops_same_minute (m : Z) (nows : list DateTime) (dv : Sketch2.Device) :
  Sketch2.lastMinute dv = m -> Forall (fun r => minute r = m) nows ->
  Sketch2.loops nows dv = dv.
Proof.
  intros E H. induction H as [|r nows Hr _ IH]; [reflexivity |].
  change (Sketch2.loops (r :: nows) dv)
    with (Sketch2.loops nows (Sketch2.loop (fun d => d) r dv)).
  rewrite Sketch2_loop_same_minute by congruence. exact IH.
Qed.

(** X5: [loop] renders at most once per minute.  Of any run of rounds
    whose clock readings all show the same minute (no request pending),
    only the first can change anything: the run leaves the device as its
    first round does, that round renders exactly when the minute differs
    from [lastMinute], and a run that starts on the minute already shown
    changes nothing at all, so the EEPROM is written once per minute
    however often [loop] polls. *)
Theorem X5_loop_once_per_minute
    (now : DateTime) (rest : list DateTime)
    (d1 : Sketch1.Device) (d2 : Sketch2.Device) :
  is_uint8 (minute now) ->
  Forall (fun r => minute r = minute now) rest ->
  Sketch1.loops (now :: rest) d1 = Sketch1.loop now (fun d => d) d1 /\
  Sketch2.loops (now :: rest) d2 = Sketch2.loop (fun d => d) now d2 /\
  (minute now = Sketch1.lastMinute d1 -> Sketch1.loops (now :: rest) d1 = d1) /\
  (minute now = Sketch2.lastMinute d2 -> Sketch2.loops (now :: rest) d2 = d2) /\
  (minute now <> Sketch1.lastMinute d1 ->
   Sketch1.board (Sketch1.loops (now :: rest) d1)
   = Sketch1.updateDisplay now (Sketch1.board d1)) /\
  (minute now <> Sketch2.lastMinute d2 ->
   Sketch2.board (Sketch2.loops (now :: rest) d2)
   = Sketch2.updateDisplay now (Sketch2.board d2)).
Proof.
  intros Hm Hrest.
  assert (E1 : Sketch1.loops (now :: rest) d1 = Sketch1.loop now (fun d => d) d1).
  { change (Sketch1.loops (now :: rest) d1)
      with (Sketch1.loops rest (Sketch1.loop now (fun d => d) d1)).
    apply (Sketch1_loops_same_minute (minute now)); [| exact Hrest].
    apply Sketch1_loop_lastMinute, Hm. }
  assert (E2 : Sketch2.loops (now :: rest) d2 = Sketch2.loop (fun d => d) now d2).
  { change (Sketch2.loops (now :: rest) d2)
      with (Sketch2.loops rest (Sketch2.loop (fun d => d) now d2)).
    apply (Sketch2_loops_same_minute (minute now)); [| exact Hrest].
    apply Sketch2_loop_lastMinute, Hm. }
  rewrite E1, E2.
  split; [reflexivity |]. split; [reflexivity |].
  split; [apply Sketch1_loop_same_minute |].
  split; [apply Sketch2_loop_same_minute |].
  split; intros N; [unfold Sketch1.loop | unfold Sketch2.loop];
    apply Z.eqb_neq in N; rewrite N; reflexivity.
Qed.

Lemma X5_loop_once_per_minute_witness :
  Sketch1.loops [mkDateTime 10 9 1000; mkDateTime 10 9 1001; mkDateTime 10 9 1002]
    (Sketch1.mkDevice (Sketch1.boot 0) 255 [])
  = Sketch1.loop (mkDateTime 10 9 1000) (fun d => d)
      (Sketch1.mkDevice (Sketch1.boot 0) 255 []).
Proof.
  refine (proj1 (X5_loop_once_per_minute (mkDateTime 10 9 1000)
                   [mkDateTime 10 9 1001; mkDateTime 10 9 1002]
                   (Sketch1.mkDevice (Sketch1.boot 0) 255 [])
                   (Sketch2.mkDevice Sketch2.boot 255 []) _ _)).
  - unfold is_uint8. simpl. lia.
  - repeat constructor.
Defined.

(** ** Boot *)

Lemma Sketch1_updateDisplay_wf (dt : DateTime) (st : Sketch1.State) :
  Sketch1.wf st -> Sketch1.wf (Sketch1.updateDisplay dt st).
Proof.
  unfold Sketch1.wf, Sketch1.updateDisplay, Sketch1.digits. simpl.
  rewrite !length_insert. tauto.
Qed.

Lemma Sketch2_updateDisplay_wf (dt : DateTime) (st : Sketch2.State) :
  Sketch2.wf st -> Sketch2.wf (Sketch2.updateDisplay dt st).
Proof.
  unfold Sketch2.wf, Sketch2.updateDisplay, Sketch2.setMotorDigit. simpl.
  rewrite !length_insert. tauto.
Qed.

Lemma Sketch1_setup_wf
    (DateTime_of_epoch : Z -> DateTime) (now : DateTime) (eeprom : Z) :
  Sketch1.wf (Sketch1.board (Sketch1.setup DateTime_of_epoch now eeprom)).
Proof.
  unfold Sketch1.setup, Sketch1.setup_recovery. simpl.
  destruct (Sketch1.planRecovery _ _).
  - apply Sketch1_updateDisplay_wf. repeat split.
  - repeat split.
Qed.

(** X6: after [setup] and the first round of [loop] the board asks for
    the time the loop read, whatever the EEPROM held and whether or not
    the recovery of [setup] rendered: [lastMinute] starts at 255, which no
    reading shows, so the first round always renders.  In the first
    sketch the EEPROM then holds that time; in the second sketch [setup]
    itself has already asked for the time it read. *)
Theorem X6_first_round_shows_the_time
    (DateTime_of_epoch : Z -> DateTime) (eeprom : Z) (atSetup atLoop : DateTime) :
  valid_DateTime atSetup -> valid_DateTime atLoop ->
  let d1 := Sketch1.loop atLoop (fun d => d)
              (Sketch1.setup DateTime_of_epoch atSetup eeprom) in
  let d2 := Sketch2.loop (fun d => d) atLoop (Sketch2.setup atSetup) in
  Sketch1.motorTargets (Sketch1.board d1) = clock_digits atLoop /\
  Sketch1.motorMoveFlags (Sketch1.board d1) = [true; true; true; true] /\
  Sketch1.loadState (Sketch1.board d1) = unixtime atLoop /\
  Sketch1.lastMinute d1 = minute atLoop /\
  Sketch2.targetSteps (Sketch2.board (Sketch2.setup atSetup))
  = map Sketch2.steps_of_digit (clock_digits atSetup) /\
  Sketch2.targetSteps (Sketch2.board d2)
  = map Sketch2.steps_of_digit (clock_digits atLoop) /\
  Sketch2.moveFlag (Sketch2.board d2) = [true; true; true; true] /\
  Sketch2.lastMinute d2 = minute atLoop.
Proof.
  intros Vs Vl d1 d2.
  assert (Hm : 0 <= minute atLoop < 60) by apply Vl.
  assert (N : (minute atLoop =? 255) = false) by (apply Z.eqb_neq; lia).
  assert (E1 : d1 = Sketch1.mkDevice
                      (Sketch1.updateDisplay atLoop
                         (Sketch1.board (Sketch1.setup DateTime_of_epoch atSetup eeprom)))
                      (to_uint8 (minute atLoop)) []).
  { subst d1. unfold Sketch1.loop. simpl. rewrite N. reflexivity. }
  assert (E2 : d2 = Sketch2.mkDevice
                      (Sketch2.updateDisplay atLoop (Sketch2.updateDisplay atSetup Sketch2.boot))
                      (to_uint8 (minute atLoop)) []).
  { subst d2. unfold Sketch2.loop. simpl. rewrite N. reflexivity. }
  rewrite E1, E2. simpl.
  destruct (Sketch1_updateDisplay_board atLoop _
              (Sketch1_setup_wf DateTime_of_epoch atSetup eeprom)) as [T1 F1].
  assert (W0 : Sketch2.wf Sketch2.boot) by (repeat split).
  destruct (Sketch2_updateDisplay_board atSetup _ Vs W0) as [T2 _].
  destruct (Sketch2_updateDisplay_board atLoop _ Vl
              (Sketch2_updateDisplay_wf atSetup _ W0)) as [T3 F3].
  rewrite Sketch1_digits_clock in T1 by exact Vl.
  rewrite (to_uint8_small (minute atLoop)) by lia.
  repeat split; assumption.
Qed.

Lemma X6_first_round_shows_the_time_witness :
  Sketch1.motorTargets
    (Sketch1.board
       (Sketch1.loop (mkDateTime 10 10 1200) (fun d => d)
          (Sketch1.setup (fun t => mkDateTime ((t / 3600) mod 24) ((t / 60) mod 60) t)
             (mkDateTime 10 9 1199) 0)))
  = [1; 0; 1; 0].
Proof.
  refine (proj1 (X6_first_round_shows_the_time
                   (fun t => mkDateTime ((t / 3600) mod 24) ((t / 60) mod 60) t)
                   0 (mkDateTime 10 9 1199) (mkDateTime 10 10 1200) _ _));
    unfold valid_DateTime, is_uint32; simpl; lia.
Defined.

(** ** Setting the time *)

(** X7: a time set over [/settime] survives a power cut exactly when it
    is not 0.  For every [long] that [toInt()] hands over,
    [handleSetTime] answers 200, hands the time to the RTC and saves it;
    the [long] is converted to [uint32_t], so a negative one is saved as
    2^32 more.  At the next boot, with the clock at C, [setup] renders C
    if the saved time is positive and less than a day behind C (in
    [uint32_t] arithmetic), and otherwise renders nothing: a saved 0 is
    read as no saved value.  The only assumption on RTClib is that
    [DateTime(e).unixtime()] is [e]. *)
Theorem X7_set_time_then_reboot
    (DateTime_of_epoch : Z -> DateTime) (n : Z) (dv : Sketch1.Device)
    (atBoot : DateTime) :
  let e := if n <? 0 then n + 2 ^ 32 else n in
  let C := unixtime atBoot in
  is_long n -> unixtime (DateTime_of_epoch e) = e -> is_uint32 C ->
  let set := Sketch1.handleSetTime DateTime_of_epoch (Some n) dv in
  let rebooted :=
    Sketch1.setup DateTime_of_epoch atBoot (Sketch1.loadState (Sketch1.board (fst set))) in
  fst (snd set) = 200 /\
  Sketch1.adjusted (fst set) = Sketch1.adjusted dv ++ [DateTime_of_epoch e] /\
  Sketch1.board (fst set)
  = Sketch1.updateDisplay (DateTime_of_epoch e) (Sketch1.board dv) /\
  Sketch1.loadState (Sketch1.board (fst set)) = e /\
  (0 < e -> sub32 C e < 86400 ->
   Sketch1.board rebooted
   = Sketch1.updateDisplay (DateTime_of_epoch C) (Sketch1.boot e)) /\
  (e = 0 \/ 86400 <= sub32 C e -> Sketch1.board rebooted = Sketch1.boot e).
Proof.
  intros e C Hn Hrt HC set rebooted.
  assert (He : to_uint32 n = e).
  { subst e. unfold to_uint32, is_long in *. destruct (n <? 0) eqn:E.
    - apply Z.ltb_lt in E. rewrite <- (Z.mod_add n 1 (2 ^ 32)) by lia.
      apply Z.mod_small. lia.
    - apply Z.ltb_ge in E. apply Z.mod_small. lia. }
  assert (Hset : fst set
                 = Sketch1.mkDevice
                     (Sketch1.updateDisplay (DateTime_of_epoch e) (Sketch1.board dv))
                     (Sketch1.lastMinute dv)
                     (Sketch1.adjusted dv ++ [DateTime_of_epoch e]))
    by (subst set; unfold Sketch1.handleSetTime; rewrite He; reflexivity).
  assert (Hs : Sketch1.loadState (Sketch1.board (fst set)) = e)
    by (rewrite Hset; exact Hrt).
  split; [reflexivity |]. split; [rewrite Hset; reflexivity |].
  split; [rewrite Hset; reflexivity |]. split; [exact Hs |].
  subst rebooted. rewrite Hs. unfold Sketch1.setup, Sketch1.setup_recovery. simpl.
  fold C. split.
  - intros Hpos Hgap. rewrite (planRecovery_recent e C HC Hpos Hgap). reflexivity.
  - intros [E0 | Hgap].
    + rewrite E0. rewrite planRecovery_absent. reflexivity.
    + rewrite (planRecovery_stale e C Hgap). reflexivity.
Qed.

Lemma X7_set_time_then_reboot_witness :
  Sketch1.loadState (Sketch1.board (fst
    (Sketch1.handleSetTime
       (fun t => mkDateTime ((t / 3600) mod 24) ((t / 60) mod 60) t)
       (Some (-1)) (Sketch1.mkDevice (Sketch1.boot 0) 255 []))))
  = 4294967295 /\
  Sketch1.board
    (Sketch1.setup (fun t => mkDateTime ((t / 3600) mod 24) ((t / 60) mod 60) t)
       (mkDateTime 0 0 5)
       (Sketch1.loadState (Sketch1.board (fst
          (Sketch1.handleSetTime
             (fun t => mkDateTime ((t / 3600) mod 24) ((t / 60) mod 60) t)
             (Some (-1)) (Sketch1.mkDevice (Sketch1.boot 0) 255 []))))))
  = Sketch1.updateDisplay (mkDateTime 0 0 5) (Sketch1.boot 4294967295).
Proof.
  assert (H := X7_set_time_then_reboot
                 (fun t => mkDateTime ((t / 3600) mod 24) ((t / 60) mod 60) t)
                 (-1) (Sketch1.mkDevice (Sketch1.boot 0) 255 [])
                 (mkDateTime 0 0 5)
                 ltac:(unfold is_long; lia) eq_refl
                 ltac:(unfold is_uint32; simpl; lia)).
  split.
  - exact (proj1 (proj2 (proj2 (proj2 H)))).
  - exact (proj1 (proj2 (proj2 (proj2 (proj2 H))))
             ltac:(simpl; lia) ltac:(vm_compute; reflexivity)).
Defined.

(** ** The manual override *)

Ltac rejected :=
  let Hno := fresh "Hno" in
  match goal with
  | |- (_ <-> ?ok) /\ _ =>
      assert (Hno : ~ ok)
        by (let m := fresh in let d := fresh in
            let Em := fresh in let Ed := fresh in
            intros (m & d & Em & Ed & ? & ?);
            first [ discriminate Em | discriminate Ed
                  | injection Em as <-; injection Ed as <-; lia ])
  end;
  simpl;
  split; [split; [discriminate | intros; contradiction] |];
  split; [split; [intros _; exact Hno | reflexivity] |];
  split; [reflexivity |];
  let m := fresh in let d := fresh in
  intros m d ? ? ? ?; exfalso; apply Hno; exists m, d; tauto.

(** X8: [handleManualSet] answers 200 exactly when both arguments are
    there, the motor is in [0,3] and the digit in [0,10]; every other
    request is answered 400 and leaves the state untouched.  An accepted
    request writes the step count of the digit as given (nothing is
    clamped or wrapped) into the slot of the named motor, raises that
    flag, and touches nothing else. *)
Theorem X8_handleManualSet_accepts_iff (req : Sketch2.Request) (st : Sketch2.State) :
  let ok := exists motor digit,
              Sketch2.arg_motor req = Some motor /\
              Sketch2.arg_digit req = Some digit /\
              0 <= motor <= 3 /\ 0 <= digit <= 10 in
  let out := Sketch2.handleManualSet req st in
  (fst (snd out) = 200 <-> ok) /\
  (fst (snd out) = 400 <-> ~ ok) /\
  (~ ok -> fst out = st) /\
  (forall motor digit,
     Sketch2.arg_motor req = Some motor -> Sketch2.arg_digit req = Some digit ->
     0 <= motor <= 3 -> 0 <= digit <= 10 ->
     fst out
     = Sketch2.mkState
         (<[Z.to_nat motor := Sketch2.steps_of_digit digit]> (Sketch2.targetSteps st))
         (<[Z.to_nat motor := true]> (Sketch2.moveFlag st))
         (Sketch2.steppers st) (Sketch2.taskPc st)
         (Sketch2.trace st ++ [Publish (Z.to_nat motor) digit])).
Proof.
  intros ok out. subst ok out. unfold Sketch2.handleManualSet.
  destruct (Sketch2.arg_motor req) as [motor|]; [| rejected].
  destruct (Sketch2.arg_digit req) as [digit|]; [| rejected].
  destruct ((0 <=? motor) && (motor <? Z.of_nat MOTOR_COUNT)
            && (0 <=? digit) && (digit <=? 10)) eqn:E.
  - rewrite !andb_true_iff, !Z.leb_le, Z.ltb_lt in E. unfold MOTOR_COUNT in E.
    assert (Hok : exists m d, Some motor = Some m /\ Some digit = Some d /\
                              0 <= m <= 3 /\ 0 <= d <= 10)
      by (exists motor, digit; repeat split; lia).
    simpl. split; [tauto |]. split; [split; [discriminate | tauto] |].
    split; [tauto |].
    intros m d Em Ed Hm Hd. injection Em as <-. injection Ed as <-.
    unfold Sketch2.setMotorDigit.
    rewrite !to_uint8_small by lia. rewrite clamp_small by lia. reflexivity.
  - unfold MOTOR_COUNT in E.
    rewrite !andb_false_iff, !Z.leb_gt, Z.ltb_ge in E. rejected.
Qed.

(** ** A reading that is not a time *)

Lemma clamped_byte (n : Z) : 0 <= Sketch2.clamp (to_uint8 n) <= 10.
Proof.
  unfold Sketch2.clamp, to_uint8. pose proof (Z.mod_pos_bound n (2 ^ 8)).
  destruct (10 <? n mod 2 ^ 8) eqn:E; lia.
Qed.

Lemma target_le_blank (d : Z) :
  0 <= d <= 10 ->
  0 <= Sketch2.motorTask_target (Sketch2.steps_of_digit d) <= 2908.
Proof. intros H. each_digit d H; vm_compute; split; discriminate. Qed.

(** X10: the second sketch never asks for more than the blank, whatever
    the RTC hands out.  For any reading, valid or not, every digit that
    [updateDisplay] publishes is in [0,10] and every slot it leaves holds
    the step count of such a digit, whose target lies in [0, 2908]. *)
Theorem X10_render_stays_within_blank (dt : DateTime) (st : Sketch2.State) :
  Sketch2.wf st ->
  exists d0 d1 d2 d3,
    Forall (fun d => 0 <= d <= 10) [d0; d1; d2; d3] /\
    Sketch2.trace (Sketch2.updateDisplay dt st)
    = Sketch2.trace st ++ [Publish 0 d0; Publish 1 d1; Publish 2 d2; Publish 3 d3] /\
    Sketch2.targetSteps (Sketch2.updateDisplay dt st)
    = map Sketch2.steps_of_digit [d0; d1; d2; d3] /\
    Forall (fun s => 0 <= Sketch2.motorTask_target s <= 2908)
           (Sketch2.targetSteps (Sketch2.updateDisplay dt st)).
Proof.
  intros (Ht & _). destruct st as [ts fs ms ps tr]. simpl in Ht.
  destruct ts as [|? [|? [|? [|? [|? ?]]]]]; try discriminate.
  unfold Sketch2.updateDisplay, Sketch2.setMotorDigit. simpl.
  do 4 eexists.
  split; [| split; [rewrite <- !app_assoc; reflexivity | split; [reflexivity |]]].
  - repeat constructor; apply clamped_byte.
  - repeat constructor; apply target_le_blank, clamped_byte.
Qed.

Lemma X10_render_stays_within_blank_witness :
  exists d0 d1 d2 d3,
    Forall (fun d => 0 <= d <= 10) [d0; d1; d2; d3] /\
    Sketch2.trace (Sketch2.updateDisplay (mkDateTime 45 165 0) Sketch2.boot)
    = Sketch2.trace Sketch2.boot ++ [Publish 0 d0; Publish 1 d1; Publish 2 d2; Publish 3 d3] /\
    Sketch2.targetSteps (Sketch2.updateDisplay (mkDateTime 45 165 0) Sketch2.boot)
    = map Sketch2.steps_of_digit [d0; d1; d2; d3] /\
    Forall (fun s => 0 <= Sketch2.motorTask_target s <= 2908)
           (Sketch2.targetSteps (Sketch2.updateDisplay (mkDateTime 45 165 0) Sketch2.boot)).
Proof.
  apply (X10_render_stays_within_blank (mkDateTime 45 165 0) Sketch2.boot).
  repeat split.
Defined.

(** ** Moves are not preempted *)

Lemma Sketch2_step_spares (j : nat) (a : Sketch2.Step) (st : Sketch2.State) :
  Sketch2_spares j a ->
  Sketch2.steppers (Sketch2.step a st) !! j = Sketch2.steppers st !! j /\
  Sketch2.taskPc (Sketch2.step a st) !! j = Sketch2.taskPc st !! j.
Proof.
  destruct a as [idx due | index digit between]; simpl.
  - intros N. pose proof (Sketch2_motorTask_other idx j due st N) as E.
    unfold Sketch2_axis in E. injection E as _ _ E1 E2. split; assumption.
  - intros Hb.
    pose proof (Sketch2_quanta_other j between
                  (Sketch2.store_target index digit st) Hb) as E.
    unfold Sketch2_axis in E. injection E as _ _ E1 E2. split; assumption.
Qed.

Lemma Sketch1_step_spares (j : nat) (a : Sketch1.Step) (st : Sketch1.State) :
  Sketch1_spares j a ->
  Sketch1.motors (Sketch1.step a st) !! j = Sketch1.motors st !! j /\
  Sketch1.taskPc (Sketch1.step a st) !! j = Sketch1.taskPc st !! j.
Proof.
  destruct a as [idx due | index digit between | epoch]; simpl;
    [| | split; reflexivity].
  - intros N. pose proof (Sketch1_motorTask_other idx j due st N) as E.
    unfold Sketch1_axis in E. injection E as _ _ E1 E2. split; assumption.
  - intros Hb.
    pose proof (Sketch1_quanta_other j between
                  (Sketch1.store_target index digit st) Hb) as E.
    unfold Sketch1_axis in E. injection E as _ _ E1 E2. split; assumption.
Qed.

(** X11: nothing but its own task moves an axis.  Whatever else is
    scheduled (quanta of the other tasks, saves, publishes to any axis,
    this one included), the stepper of axis j keeps its position and its
    target and the task of axis j keeps its place: a publish can neither
    redirect nor stop a move under way. *)
Theorem X11_only_own_task_moves_axis
    (j : nat) (sched1 : list Sketch1.Step) (sched2 : list Sketch2.Step)
    (s1 : Sketch1.State) (s2 : Sketch2.State) :
  Forall (Sketch1_spares j) sched1 -> Forall (Sketch2_spares j) sched2 ->
  Sketch1.motors (Sketch1.exec sched1 s1) !! j = Sketch1.motors s1 !! j /\
  Sketch1.taskPc (Sketch1.exec sched1 s1) !! j = Sketch1.taskPc s1 !! j /\
  Sketch2.steppers (Sketch2.exec sched2 s2) !! j = Sketch2.steppers s2 !! j /\
  Sketch2.taskPc (Sketch2.exec sched2 s2) !! j = Sketch2.taskPc s2 !! j.
Proof.
  intros H1 H2.
  assert (G1 : Sketch1.motors (Sketch1.exec sched1 s1) !! j = Sketch1.motors s1 !! j /\
               Sketch1.taskPc (Sketch1.exec sched1 s1) !! j = Sketch1.taskPc s1 !! j).
  { revert s1. induction H1 as [|a sched Ha _ IH]; intros s1; [split; reflexivity |].
    change (Sketch1.exec (a :: sched) s1) with (Sketch1.exec sched (Sketch1.step a s1)).
    destruct (IH (Sketch1.step a s1)) as [-> ->]. apply Sketch1_step_spares, Ha. }
  assert (G2 : Sketch2.steppers (Sketch2.exec sched2 s2) !! j = Sketch2.steppers s2 !! j /\
               Sketch2.taskPc (Sketch2.exec sched2 s2) !! j = Sketch2.taskPc s2 !! j).
  { revert s2. induction H2 as [|a sched Ha _ IH]; intros s2; [split; reflexivity |].
    change (Sketch2.exec (a :: sched) s2) with (Sketch2.exec sched (Sketch2.step a s2)).
    destruct (IH (Sketch2.step a s2)) as [-> ->]. apply Sketch2_step_spares, Ha. }
  tauto.
Qed.

Lemma X11_only_own_task_moves_axis_witness :
  Sketch2.steppers
    (Sketch2.exec [Sketch2.Publication 0 7 [(1%nat, true)]; Sketch2.Quantum 2 true]
       (Sketch2.run_task 0 [true; true] (Sketch2.setMotorDigit 0 1 Sketch2.boot))) !! 0%nat
  = Sketch2.steppers
      (Sketch2.run_task 0 [true; true] (Sketch2.setMotorDigit 0 1 Sketch2.boot)) !! 0%nat.
Proof.
  refine (proj1 (proj2 (proj2
    (X11_only_own_task_moves_axis 0 [Sketch1.Save 5]
       [Sketch2.Publication 0 7 [(1%nat, true)]; Sketch2.Quantum 2 true]
       (Sketch1.boot 0)
       (Sketch2.run_task 0 [true; true] (Sketch2.setMotorDigit 0 1 Sketch2.boot)) _ _)))).
  - repeat constructor.
  - repeat constructor; simpl; lia.
Defined.

(** ** From a render to the display *)

Lemma Sketch2_run_task_other (idx j : nat) (sched : list bool) (st : Sketch2.State) :
  idx <> j -> Sketch2_axis j (Sketch2.run_task idx sched st) = Sketch2_axis j st.
Proof.
  intros N. revert st. induction sched as [|due sched IH]; intros st; [reflexivity |].
  change (Sketch2.run_task idx (due :: sched) st)
    with (Sketch2.run_task idx sched (Sketch2.motorTask idx due st)).
  rewrite IH. apply Sketch2_motorTask_other. exact N.
Qed.

Lemma Sketch2_run_task_wf (idx : nat) (sched : list bool) (st : Sketch2.State) :
  Sketch2.wf st -> Sketch2.wf (Sketch2.run_task idx sched st).
Proof.
  revert st. induction sched as [|due sched IH]; intros st Hw; [exact Hw |].
  change (Sketch2.run_task idx (due :: sched) st)
    with (Sketch2.run_task idx sched (Sketch2.motorTask idx due st)).
  apply IH. destruct (Sketch2_motorTask_effect idx due st) as (_ & H & _).
  exact (H Hw).
Qed.

(** One axis, flagged and idle, makes its move; the others stand by. *)
Lemma Sketch2_stage
    (idx : nat) (steps : float) (m : AccelStepper) (st : Sketch2.State) :
  Sketch2.wf st -> (idx < MOTOR_COUNT)%nat ->
  Sketch2_axis idx st = (Some steps, Some true, Some m, Some AtPoll) ->
  let target := Sketch2.motorTask_target steps in
  let st' := Sketch2.run_task idx (move_quanta target m) st in
  Sketch2.wf st' /\
  Sketch2_axis idx st' = (Some steps, Some false, Some (rest_at target), Some AtPoll) /\
  (forall j, j <> idx -> Sketch2_axis j st' = Sketch2_axis j st) /\
  Sketch2.trace st' = Sketch2.trace st ++ [MoveTo idx target].
Proof.
  intros Hw Hi Hax target st'. unfold Sketch2_axis in Hax.
  injection Hax as Es Ef Em Epc.
  split; [apply Sketch2_run_task_wf, Hw |].
  split; [| split; [intros j N; apply Sketch2_run_task_other; congruence |]].
  - destruct (Sketch2_motorTask_starts idx true steps m st Hw Epc Ef Es Em)
      as (Hw1 & Epc1 & Em1 & Ef1 & Et1 & _).
    fold target in Em1.
    set (s1 := Sketch2.motorTask idx true st) in *.
    set (n := Z.to_nat (Z.abs (target - currentPosition m))).
    assert (Hn : Z.abs (distanceToGo (moveTo target m)) = Z.of_nat n).
    { unfold distanceToGo, moveTo. simpl. subst n. rewrite Z2Nat.id; lia. }
    destruct (Sketch2_move_completes idx n s1 _ Hw1 Hi Epc1 Em1 Hn)
      as (Em2 & Epc2 & Et2 & Ef2 & _).
    pose proof (Sketch2_move_completes_wf idx n s1 Hw1) as Hw2.
    set (s2 := Sketch2.run_task idx (replicate n true) s1) in *.
    simpl in Em2.
    destruct (Sketch2_motorTask_arrives idx true _ s2 Hw2 Hi Epc2 Em2)
      as (Hw3 & Epc3 & Em3 & Ef3 & Et3 & _);
      [unfold distanceToGo; simpl; lia |].
    set (s3 := Sketch2.motorTask idx true s2) in *.
    destruct (Sketch2_motorTask_clears idx true s3 Hw3 Hi Epc3)
      as (Hw4 & Epc4 & Ef4 & Em4 & Et4 & _).
    assert (E : st' = Sketch2.motorTask idx true s3).
    { subst st'. unfold move_quanta. fold n.
      change (Sketch2.run_task idx (true :: replicate n true ++ [true; true]) st)
        with (Sketch2.run_task idx (replicate n true ++ [true; true]) s1).
      rewrite Sketch2_run_task_app. reflexivity. }
    rewrite E. unfold Sketch2_axis, rest_at.
    rewrite Epc4, Ef4, Em4, Em3, Em2, Et4, Et3, Et2, Et1, Es. reflexivity.
  - subst st'. unfold move_quanta.
    change (Sketch2.run_task idx (true :: ?l) st)
      with (Sketch2.run_task idx l (Sketch2.motorTask idx true st)).
    destruct (Sketch2_motorTask_take idx true steps st Hw Hi Epc Ef Es)
      as (Htr & _ & _ & Hq).
    match goal with
    | |- Sketch2.trace (Sketch2.run_task idx ?l ?s) = _ =>
        destruct (Sketch2_run_task_quiet idx l s Hq) as (_ & Htr' & _)
    end.
    rewrite Htr', Htr. reflexivity.
Qed.

Lemma four_lookups {A : Type} (l : list A) (a b c d : A) :
  length l = MOTOR_COUNT ->
  l !! 0%nat = Some a -> l !! 1%nat = Some b ->
  l !! 2%nat = Some c -> l !! 3%nat = Some d ->
  l = [a; b; c; d].
Proof.
  intros Hl H0 H1 H2 H3.
  destruct l as [|? [|? [|? [|? [|? ?]]]]]; try discriminate.
  simpl in *. congruence.
Qed.

Lemma Sketch2_render_then_moves
    (dt : DateTime) (m0 m1 m2 m3 : AccelStepper) (st : Sketch2.State) :
  valid_DateTime dt -> Sketch2.wf st ->
  Sketch2.taskPc st = [AtPoll; AtPoll; AtPoll; AtPoll] ->
  Sketch2.steppers st = [m0; m1; m2; m3] ->
  let d0 := hour12 (hour dt) / 10 in
  let d1 := hour12 (hour dt) mod 10 in
  let d2 := minute dt / 10 in
  let d3 := minute dt mod 10 in
  let st' :=
    Sketch2.run_task 3 (move_quanta (digit_target d3) m3)
      (Sketch2.run_task 2 (move_quanta (digit_target d2) m2)
         (Sketch2.run_task 1 (move_quanta (digit_target d1) m1)
            (Sketch2.run_task 0 (move_quanta (digit_target d0) m0)
               (Sketch2.updateDisplay dt st)))) in
  Sketch2.steppers st'
  = [rest_at (digit_target d0); rest_at (digit_target d1);
     rest_at (digit_target d2); rest_at (digit_target d3)] /\
  Sketch2.moveFlag st' = [false; false; false; false] /\
  Sketch2.taskPc st' = [AtPoll; AtPoll; AtPoll; AtPoll] /\
  Sketch2.targetSteps st' = map Sketch2.steps_of_digit [d0; d1; d2; d3] /\
  Sketch2.trace st'
  = Sketch2.trace st
    ++ [Publish 0 d0; Publish 1 d1; Publish 2 d2; Publish 3 d3;
        MoveTo 0 (digit_target d0); MoveTo 1 (digit_target d1);
        MoveTo 2 (digit_target d2); MoveTo 3 (digit_target d3)].
Proof.
  intros Hv Hw Hpc Hms d0 d1 d2 d3 st'.
  pose proof (clock_digits_range dt Hv) as Hr. unfold clock_digits in Hr.
  fold d0 d1 d2 d3 in Hr.
  repeat match goal with
         | H : Forall _ (_ :: _) |- _ => apply Forall_cons in H; destruct H
         end.
  assert (T : forall d, 0 <= d <= 9 ->
              Sketch2.motorTask_target (Sketch2.steps_of_digit d) = digit_target d).
  { intros d Hd. apply target_table. lia. }
  destruct (Sketch2_updateDisplay_board dt st Hv Hw) as [Hts Hfs].
  pose proof (Sketch2_updateDisplay_wf dt st Hw) as W0.
  pose proof (Sketch2_updateDisplay_trace dt st Hv) as Tr0.
  assert (Hms0 : Sketch2.steppers (Sketch2.updateDisplay dt st) = [m0; m1; m2; m3])
    by exact Hms.
  assert (Hpc0 : Sketch2.taskPc (Sketch2.updateDisplay dt st)
                 = [AtPoll; AtPoll; AtPoll; AtPoll]) by exact Hpc.
  set (s0 := Sketch2.updateDisplay dt st) in *.
  change (map Sketch2.steps_of_digit (clock_digits dt))
    with [Sketch2.steps_of_digit d0; Sketch2.steps_of_digit d1;
          Sketch2.steps_of_digit d2; Sketch2.steps_of_digit d3] in Hts.
  change (publish_all (clock_digits dt))
    with [Publish 0 d0; Publish 1 d1; Publish 2 d2; Publish 3 d3] in Tr0.
  assert (A0 : forall k d m,
             [d0; d1; d2; d3] !! k = Some d -> [m0; m1; m2; m3] !! k = Some m ->
             Sketch2_axis k s0
             = (Some (Sketch2.steps_of_digit d), Some true, Some m, Some AtPoll)).
  { intros k d m Hd Hm. unfold Sketch2_axis. rewrite Hts, Hfs, Hms0, Hpc0.
    destruct k as [|[|[|[|k]]]]; simpl in *; try discriminate; congruence. }
  destruct (Sketch2_stage 0 _ m0 s0 W0 ltac:(unfold MOTOR_COUNT; lia)
              (A0 0%nat d0 m0 eq_refl eq_refl)) as (W1 & F0 & O0 & Tr1).
  rewrite T in F0, Tr1 by assumption. rewrite T in W1, O0 by assumption.
  set (s1 := Sketch2.run_task 0 (move_quanta (digit_target d0) m0) s0) in *.
  assert (A1 : Sketch2_axis 1 s1
               = (Some (Sketch2.steps_of_digit d1), Some true, Some m1, Some AtPoll))
    by (rewrite O0 by lia; apply A0; reflexivity).
  destruct (Sketch2_stage 1 _ m1 s1 W1 ltac:(unfold MOTOR_COUNT; lia) A1)
    as (W2 & F1 & O1 & Tr2).
  rewrite T in F1, Tr2 by assumption. rewrite T in W2, O1 by assumption.
  set (s2 := Sketch2.run_task 1 (move_quanta (digit_target d1) m1) s1) in *.
  assert (A2 : Sketch2_axis 2 s2
               = (Some (Sketch2.steps_of_digit d2), Some true, Some m2, Some AtPoll))
    by (rewrite O1, O0 by lia; apply A0; reflexivity).
  destruct (Sketch2_stage 2 _ m2 s2 W2 ltac:(unfold MOTOR_COUNT; lia) A2)
    as (W3 & F2 & O2 & Tr3).
  rewrite T in F2, Tr3 by assumption. rewrite T in W3, O2 by assumption.
  set (s3 := Sketch2.run_task 2 (move_quanta (digit_target d2) m2) s2) in *.
  assert (A3 : Sketch2_axis 3 s3
               = (Some (Sketch2.steps_of_digit d3), Some true, Some m3, Some AtPoll))
    by (rewrite O2, O1, O0 by lia; apply A0; reflexivity).
  destruct (Sketch2_stage 3 _ m3 s3 W3 ltac:(unfold MOTOR_COUNT; lia) A3)
    as (W4 & F3 & O3 & Tr4).
  rewrite T in F3, Tr4 by assumption. rewrite T in W4, O3 by assumption.
  fold st' in W4, F3, O3, Tr4.
  assert (G0 : Sketch2_axis 0 st'
               = (Some (Sketch2.steps_of_digit d0), Some false,
                  Some (rest_at (digit_target d0)), Some AtPoll))
    by (rewrite O3, O2, O1 by lia; exact F0).
  assert (G1 : Sketch2_axis 1 st'
               = (Some (Sketch2.steps_of_digit d1), Some false,
                  Some (rest_at (digit_target d1)), Some AtPoll))
    by (rewrite O3, O2 by lia; exact F1).
  assert (G2 : Sketch2_axis 2 st'
               = (Some (Sketch2.steps_of_digit d2), Some false,
                  Some (rest_at (digit_target d2)), Some AtPoll))
    by (rewrite O3 by lia; exact F2).
  unfold Sketch2_axis in G0, G1, G2, F3.
  injection G0 as G0t G0f G0m G0p. injection G1 as G1t G1f G1m G1p.
  injection G2 as G2t G2f G2m G2p. injection F3 as G3t G3f G3m G3p.
  destruct W4 as (Lt & Lf & Lm & Lp).
  split; [apply four_lookups; assumption |].
  split; [apply four_lookups; assumption |].
  split; [apply four_lookups; assumption |].
  split; [simpl; apply four_lookups; assumption |].
  rewrite Tr4, Tr3, Tr2, Tr1, Tr0. rewrite <- !app_assoc. reflexivity.
Qed.

Lemma Sketch1_run_task_other (idx j : nat) (sched : list bool) (st : Sketch1.State) :
  idx <> j -> Sketch1_axis j (Sketch1.run_task idx sched st) = Sketch1_axis j st.
Proof.
  intros N. revert st. induction sched as [|due sched IH]; intros st; [reflexivity |].
  change (Sketch1.run_task idx (due :: sched) st)
    with (Sketch1.run_task idx sched (Sketch1.motorTask idx due st)).
  rewrite IH. apply Sketch1_motorTask_other. exact N.
Qed.

Lemma Sketch1_run_task_wf (idx : nat) (sched : list bool) (st : Sketch1.State) :
  Sketch1.wf st -> Sketch1.wf (Sketch1.run_task idx sched st).
Proof.
  revert st. induction sched as [|due sched IH]; intros st Hw; [exact Hw |].
  change (Sketch1.run_task idx (due :: sched) st)
    with (Sketch1.run_task idx sched (Sketch1.motorTask idx due st)).
  apply IH. destruct (Sketch1_motorTask_effect idx due st) as (_ & H & _).
  exact (H Hw).
Qed.

Lemma Sketch1_stage
    (idx : nat) (digit : Z) (m : AccelStepper) (st : Sketch1.State) :
  Sketch1.wf st -> (idx < MOTOR_COUNT)%nat ->
  Sketch1_axis idx st = (Some digit, Some true, Some m, Some AtPoll) ->
  let target := Sketch1.motorTask_target digit in
  let st' := Sketch1.run_task idx (move_quanta target m) st in
  Sketch1.wf st' /\
  Sketch1_axis idx st' = (Some digit, Some false, Some (rest_at target), Some AtPoll) /\
  (forall j, j <> idx -> Sketch1_axis j st' = Sketch1_axis j st) /\
  Sketch1.trace st' = Sketch1.trace st ++ [MoveTo idx target].
Proof.
  intros Hw Hi Hax target st'. unfold Sketch1_axis in Hax.
  injection Hax as Es Ef Em Epc.
  split; [apply Sketch1_run_task_wf, Hw |].
  split; [| split; [intros j N; apply Sketch1_run_task_other; congruence |]].
  - destruct (Sketch1_motorTask_starts idx true digit m st Hw Epc Ef Es Em)
      as (Hw1 & Epc1 & Em1 & Ef1 & Et1 & _).
    fold target in Em1.
    set (s1 := Sketch1.motorTask idx true st) in *.
    set (n := Z.to_nat (Z.abs (target - currentPosition m))).
    assert (Hn : Z.abs (distanceToGo (moveTo target m)) = Z.of_nat n).
    { unfold distanceToGo, moveTo. simpl. subst n. rewrite Z2Nat.id; lia. }
    destruct (Sketch1_move_completes idx n s1 _ Hw1 Hi Epc1 Em1 Hn)
      as (Em2 & Epc2 & Et2 & Ef2 & _).
    pose proof (Sketch1_move_completes_wf idx n s1 Hw1) as Hw2.
    set (s2 := Sketch1.run_task idx (replicate n true) s1) in *.
    simpl in Em2.
    destruct (Sketch1_motorTask_arrives idx true _ s2 Hw2 Hi Epc2 Em2)
      as (Hw3 & Epc3 & Em3 & Ef3 & Et3 & _);
      [unfold distanceToGo; simpl; lia |].
    set (s3 := Sketch1.motorTask idx true s2) in *.
    destruct (Sketch1_motorTask_clears idx true s3 Hw3 Hi Epc3)
      as (Hw4 & Epc4 & Ef4 & Em4 & Et4 & _).
    assert (E : st' = Sketch1.motorTask idx true s3).
    { subst st'. unfold move_quanta. fold n.
      change (Sketch1.run_task idx (true :: replicate n true ++ [true; true]) st)
        with (Sketch1.run_task idx (replicate n true ++ [true; true]) s1).
      rewrite Sketch1_run_task_app. reflexivity. }
    rewrite E. unfold Sketch1_axis, rest_at.
    rewrite Epc4, Ef4, Em4, Em3, Em2, Et4, Et3, Et2, Et1, Es. reflexivity.
  - subst st'. unfold move_quanta.
    change (Sketch1.run_task idx (true :: ?l) st)
      with (Sketch1.run_task idx l (Sketch1.motorTask idx true st)).
    destruct (Sketch1_motorTask_take idx true digit st Hw Hi Epc Ef Es)
      as (Htr & _ & _ & Hq).
    match goal with
    | |- Sketch1.trace (Sketch1.run_task idx ?l ?s) = _ =>
        destruct (Sketch1_run_task_quiet idx l s Hq) as (_ & Htr' & _)
    end.
    rewrite Htr', Htr. reflexivity.
Qed.


Lemma Sketch1_render_then_moves
    (dt : DateTime) (m0 m1 m2 m3 : AccelStepper) (st : Sketch1.State) :
  valid_DateTime dt -> Sketch1.wf st ->
  Sketch1.taskPc st = [AtPoll; AtPoll; AtPoll; AtPoll] ->
  Sketch1.motors st = [m0; m1; m2; m3] ->
  let d0 := hour12 (hour dt) / 10 in
  let d1 := hour12 (hour dt) mod 10 in
  let d2 := minute dt / 10 in
  let d3 := minute dt mod 10 in
  let st' :=
    Sketch1.run_task 3 (move_quanta (digit_target d3) m3)
      (Sketch1.run_task 2 (move_quanta (digit_target d2) m2)
         (Sketch1.run_task 1 (move_quanta (digit_target d1) m1)
            (Sketch1.run_task 0 (move_quanta (digit_target d0) m0)
               (Sketch1.updateDisplay dt st)))) in
  Sketch1.motors st'
  = [rest_at (digit_target d0); rest_at (digit_target d1);
     rest_at (digit_target d2); rest_at (digit_target d3)] /\
  Sketch1.motorMoveFlags st' = [false; false; false; false] /\
  Sketch1.taskPc st' = [AtPoll; AtPoll; AtPoll; AtPoll] /\
  Sketch1.motorTargets st' = [d0; d1; d2; d3] /\
  Sketch1.trace st'
  = Sketch1.trace st
    ++ [Publish 0 d0; Publish 1 d1; Publish 2 d2; Publish 3 d3;
        Persist (unixtime dt);
        MoveTo 0 (digit_target d0); MoveTo 1 (digit_target d1);
        MoveTo 2 (digit_target d2); MoveTo 3 (digit_target d3)].
Proof.
  intros Hv Hw Hpc Hms d0 d1 d2 d3 st'.
  pose proof (clock_digits_range dt Hv) as Hr. unfold clock_digits in Hr.
  fold d0 d1 d2 d3 in Hr.
  repeat match goal with
         | H : Forall _ (_ :: _) |- _ => apply Forall_cons in H; destruct H
         end.
  assert (T : forall d, 0 <= d <= 9 ->
              Sketch1.motorTask_target d = digit_target d).
  { intros d Hd. apply target_table. lia. }
  destruct (Sketch1_updateDisplay_board dt st Hw) as [Hts Hfs].
  pose proof (Sketch1_updateDisplay_wf dt st Hw) as W0.
  pose proof (Sketch1_updateDisplay_trace dt st) as Tr0.
  rewrite Sketch1_digits_clock in Hts, Tr0 by exact Hv.
  assert (Hms0 : Sketch1.motors (Sketch1.updateDisplay dt st) = [m0; m1; m2; m3])
    by exact Hms.
  assert (Hpc0 : Sketch1.taskPc (Sketch1.updateDisplay dt st)
                 = [AtPoll; AtPoll; AtPoll; AtPoll]) by exact Hpc.
  set (s0 := Sketch1.updateDisplay dt st) in *.
  change (clock_digits dt) with [d0; d1; d2; d3] in Hts.
  change (publish_all (clock_digits dt))
    with [Publish 0 d0; Publish 1 d1; Publish 2 d2; Publish 3 d3] in Tr0.
  assert (A0 : forall k d m,
             [d0; d1; d2; d3] !! k = Some d -> [m0; m1; m2; m3] !! k = Some m ->
             Sketch1_axis k s0
             = (Some d, Some true, Some m, Some AtPoll)).
  { intros k d m Hd Hm. unfold Sketch1_axis. rewrite Hts, Hfs, Hms0, Hpc0.
    destruct k as [|[|[|[|k]]]]; simpl in *; try discriminate; congruence. }
  destruct (Sketch1_stage 0 _ m0 s0 W0 ltac:(unfold MOTOR_COUNT; lia)
              (A0 0%nat d0 m0 eq_refl eq_refl)) as (W1 & F0 & O0 & Tr1).
  rewrite T in F0, Tr1 by assumption. rewrite T in W1, O0 by assumption.
  set (s1 := Sketch1.run_task 0 (move_quanta (digit_target d0) m0) s0) in *.
  assert (A1 : Sketch1_axis 1 s1
               = (Some d1, Some true, Some m1, Some AtPoll))
    by (rewrite O0 by lia; apply A0; reflexivity).
  destruct (Sketch1_stage 1 _ m1 s1 W1 ltac:(unfold MOTOR_COUNT; lia) A1)
    as (W2 & F1 & O1 & Tr2).
  rewrite T in F1, Tr2 by assumption. rewrite T in W2, O1 by assumption.
  set (s2 := Sketch1.run_task 1 (move_quanta (digit_target d1) m1) s1) in *.
  assert (A2 : Sketch1_axis 2 s2
               = (Some d2, Some true, Some m2, Some AtPoll))
    by (rewrite O1, O0 by lia; apply A0; reflexivity).
  destruct (Sketch1_stage 2 _ m2 s2 W2 ltac:(unfold MOTOR_COUNT; lia) A2)
    as (W3 & F2 & O2 & Tr3).
  rewrite T in F2, Tr3 by assumption. rewrite T in W3, O2 by assumption.
  set (s3 := Sketch1.run_task 2 (move_quanta (digit_target d2) m2) s2) in *.
  assert (A3 : Sketch1_axis 3 s3
               = (Some d3, Some true, Some m3, Some AtPoll))
    by (rewrite O2, O1, O0 by lia; apply A0; reflexivity).
  destruct (Sketch1_stage 3 _ m3 s3 W3 ltac:(unfold MOTOR_COUNT; lia) A3)
    as (W4 & F3 & O3 & Tr4).
  rewrite T in F3, Tr4 by assumption. rewrite T in W4, O3 by assumption.
  fold st' in W4, F3, O3, Tr4.
  assert (G0 : Sketch1_axis 0 st'
               = (Some d0, Some false,
                  Some (rest_at (digit_target d0)), Some AtPoll))
    by (rewrite O3, O2, O1 by lia; exact F0).
  assert (G1 : Sketch1_axis 1 st'
               = (Some d1, Some false,
                  Some (rest_at (digit_target d1)), Some AtPoll))
    by (rewrite O3, O2 by lia; exact F1).
  assert (G2 : Sketch1_axis 2 st'
               = (Some d2, Some false,
                  Some (rest_at (digit_target d2)), Some AtPoll))
    by (rewrite O3 by lia; exact F2).
  unfold Sketch1_axis in G0, G1, G2, F3.
  injection G0 as G0t G0f G0m G0p. injection G1 as G1t G1f G1m G1p.
  injection G2 as G2t G2f G2m G2p. injection F3 as G3t G3f G3m G3p.
  destruct W4 as (Lt & Lf & Lm & Lp).
  split; [apply four_lookups; assumption |].
  split; [apply four_lookups; assumption |].
  split; [apply four_lookups; assumption |].
  split; [apply four_lookups; assumption |].
  rewrite Tr4, Tr3, Tr2, Tr1, Tr0. rewrite <- !app_assoc. reflexivity.
Qed.

(** X9: from a render to the display.  Take a board whose four tasks are
    idle, whatever its slots and flags hold (a manual override not yet
    taken, say), render a valid reading, and let the four tasks make
    their moves one after the other, a step in every quantum.  Then every
    stepper rests on the target of its clock digit, floor(d * 13088 / 45),
    every flag is down and every task idle again, and each task has made
    exactly one [moveTo], to its clock digit: what was pending on an idle
    axis before the render is never moved to. *)
Theorem X9_render_reaches_display
    (dt : DateTime) (a0 a1 a2 a3 b0 b1 b2 b3 : AccelStepper)
    (s1 : Sketch1.State) (s2 : Sketch2.State) :
  valid_DateTime dt ->
  Sketch1.wf s1 -> Sketch1.taskPc s1 = [AtPoll; AtPoll; AtPoll; AtPoll] ->
  Sketch1.motors s1 = [a0; a1; a2; a3] ->
  Sketch2.wf s2 -> Sketch2.taskPc s2 = [AtPoll; AtPoll; AtPoll; AtPoll] ->
  Sketch2.steppers s2 = [b0; b1; b2; b3] ->
  let d0 := hour12 (hour dt) / 10 in
  let d1 := hour12 (hour dt) mod 10 in
  let d2 := minute dt / 10 in
  let d3 := minute dt mod 10 in
  let r1 :=
    Sketch1.run_task 3 (move_quanta (digit_target d3) a3)
      (Sketch1.run_task 2 (move_quanta (digit_target d2) a2)
         (Sketch1.run_task 1 (move_quanta (digit_target d1) a1)
            (Sketch1.run_task 0 (move_quanta (digit_target d0) a0)
               (Sketch1.updateDisplay dt s1)))) in
  let r2 :=
    Sketch2.run_task 3 (move_quanta (digit_target d3) b3)
      (Sketch2.run_task 2 (move_quanta (digit_target d2) b2)
         (Sketch2.run_task 1 (move_quanta (digit_target d1) b1)
            (Sketch2.run_task 0 (move_quanta (digit_target d0) b0)
               (Sketch2.updateDisplay dt s2)))) in
  let at_rest := [rest_at (digit_target d0); rest_at (digit_target d1);
                  rest_at (digit_target d2); rest_at (digit_target d3)] in
  let moves := [MoveTo 0 (digit_target d0); MoveTo 1 (digit_target d1);
                MoveTo 2 (digit_target d2); MoveTo 3 (digit_target d3)] in
  (Sketch1.motors r1 = at_rest /\
   Sketch1.motorMoveFlags r1 = [false; false; false; false] /\
   Sketch1.taskPc r1 = [AtPoll; AtPoll; AtPoll; AtPoll] /\
   Sketch1.motorTargets r1 = [d0; d1; d2; d3] /\
   Sketch1.trace r1
   = Sketch1.trace s1
     ++ [Publish 0 d0; Publish 1 d1; Publish 2 d2; Publish 3 d3;
         Persist (unixtime dt)] ++ moves) /\
  (Sketch2.steppers r2 = at_rest /\
   Sketch2.moveFlag r2 = [false; false; false; false] /\
   Sketch2.taskPc r2 = [AtPoll; AtPoll; AtPoll; AtPoll] /\
   Sketch2.targetSteps r2 = map Sketch2.steps_of_digit [d0; d1; d2; d3] /\
   Sketch2.trace r2
   = Sketch2.trace s2
     ++ [Publish 0 d0; Publish 1 d1; Publish 2 d2; Publish 3 d3] ++ moves).
Proof.
  intros Hv Hw1 Hp1 Hm1 Hw2 Hp2 Hm2 d0 d1 d2 d3 r1 r2 at_rest moves.
  split.
  - exact (Sketch1_render_then_moves dt a0 a1 a2 a3 s1 Hv Hw1 Hp1 Hm1).
  - exact (Sketch2_render_then_moves dt b0 b1 b2 b3 s2 Hv Hw2 Hp2 Hm2).
Qed.

Lemma X9_render_reaches_display_witness :
  Sketch2.steppers
    (Sketch2.run_task 3 (move_quanta 0 (mkStepper 0 0))
       (Sketch2.run_task 2 (move_quanta 290 (mkStepper 0 0))
          (Sketch2.run_task 1 (move_quanta 0 (mkStepper 0 0))
             (Sketch2.run_task 0 (move_quanta 290 (mkStepper 0 0))
                (Sketch2.updateDisplay (mkDateTime 10 10 1200)
                   (Sketch2.setMotorDigit 3 10 Sketch2.boot))))))
  = [mkStepper 290 290; mkStepper 0 0; mkStepper 290 290; mkStepper 0 0].
Proof.
  assert (V : valid_DateTime (mkDateTime 10 10 1200))
    by (unfold valid_DateTime, is_uint32; simpl; lia).
  assert (W1 : Sketch1.wf (Sketch1.boot 0)) by (repeat split).
  assert (W2 : Sketch2.wf (Sketch2.setMotorDigit 3 10 Sketch2.boot)) by (repeat split).
  exact (proj1 (proj2
    (X9_render_reaches_display (mkDateTime 10 10 1200)
       (mkStepper 0 0) (mkStepper 0 0) (mkStepper 0 0) (mkStepper 0 0)
       (mkStepper 0 0) (mkStepper 0 0) (mkStepper 0 0) (mkStepper 0 0)
       (Sketch1.boot 0) (Sketch2.setMotorDigit 3 10 Sketch2.boot)
       V W1 eq_refl eq_refl W2 eq_refl eq_refl))).
Defined.
